(** * Service generation of openapi-python-generator

    A shallow embedding of
    [openapi_python_generator/language_converters/python/service_generator.py]
    and the properties of its parameter resolver, return-type resolver,
    descriptor builder and service grouper.

    Python exceptions are values of [PyError] carried by [result]; Python
    dictionaries whose iteration order is observed ([responses], [paths]) are
    association lists in insertion order, dictionaries that are only looked
    up ([content]) are [gmap]s, and the [set] of tags is a [gset]. *)

From stdpp Require Import gmap strings list pretty.
From Stdlib Require Import ZArith Ascii String.

Set Implicit Arguments.
Open Scope string_scope.
Open Scope list_scope.
Open Scope Z_scope.

(** ** Exceptions and results *)

Inductive PyError : Type :=
  | Exception (msg : string)
  | AttributeError (msg : string)
  | IndexError (msg : string)
  | ValueError (msg : string).

Inductive result (A : Type) : Type :=
  | Ok (a : A)
  | Raise (e : PyError).
Arguments Ok {A} a.
Arguments Raise {A} e.

Definition bind {A B : Type} (m : result A) (k : A -> result B) : result B :=
  match m with
  | Ok a => k a
  | Raise e => Raise e
  end.

Notation "'let*' x ':=' m 'in' k" := (bind m (fun x => k))
  (at level 10, x name, m at level 100, k at level 200).

(** A [for] loop whose body may raise: the accumulator is threaded through
    the items in order and the first exception ends the loop. *)
Fixpoint for_each {A S : Type} (body : S -> A -> result S) (items : list A) (s : S)
    : result S :=
  match items with
  | [] => Ok s
  | x :: rest => let* s' := body s x in for_each body rest s'
  end.

(** ** Python string operations used by the generator *)

(** [s.startswith(p)] *)
Definition startswith (s p : string) : bool := String.prefix p s.

(** [sub in s] *)
Fixpoint contains (sub s : string) : bool :=
  String.prefix sub s ||
  match s with
  | EmptyString => false
  | String _ s' => contains sub s'
  end.

(** [s.endswith(p)]: the characters of [p], read backwards, start the
    characters of [s] read backwards. *)
Fixpoint starts_with_chars (p l : list ascii) : bool :=
  match p, l with
  | [], _ => true
  | c :: p', d :: l' => Ascii.eqb c d && starts_with_chars p' l'
  | _ :: _, [] => false
  end.

Definition endswith (s p : string) : bool :=
  starts_with_chars (List.rev (list_ascii_of_string p)) (List.rev (list_ascii_of_string s)).

(** [s.split(sep)] for a one-character separator: never the empty list. *)
Fixpoint split (sep : ascii) (s : string) : list string :=
  match s with
  | EmptyString => [EmptyString]
  | String c s' =>
      if Ascii.eqb c sep then EmptyString :: split sep s'
      else match split sep s' with
           | seg :: segs => String c seg :: segs
           | [] => [String c EmptyString]
           end
  end.

(** [ref.split('/')[-1]] *)
Definition short_name (ref : string) : string := List.last (split "/" ref) EmptyString.

(** [s.replace(a, b)] for one-character [a] and [b]. *)
Fixpoint replace (a b : ascii) (s : string) : string :=
  match s with
  | EmptyString => EmptyString
  | String c s' => String (if Ascii.eqb c a then b else c) (replace a b s')
  end.

(** [sep.join(parts)] *)
Fixpoint join (sep : string) (parts : list string) : string :=
  match parts with
  | [] => EmptyString
  | [p] => p
  | p :: rest => p +:+ sep +:+ join sep rest
  end.

(** [int(s)] on a [str] of ASCII characters, as CPython converts it in
    base 10: whitespace is skipped, one sign is allowed, then comes a run of
    digits that single underscores may group, then whitespace up to the
    end.  A run of more than [max_str_digits] digits is refused whatever
    follows it (the interpreter's default limit); anything else that does
    not fit is an invalid literal.  Characters outside ASCII are not
    modelled: they are taken as they stand, neither digits nor whitespace. *)
Definition is_py_space (c : ascii) : bool :=
  let n := nat_of_ascii c in
  ((9 <=? n) && (n <=? 13) || (n =? 32))%nat.

Definition digit_of (c : ascii) : option Z :=
  let n := nat_of_ascii c in
  if ((48 <=? n) && (n <=? 57))%nat then Some (Z.of_nat n - 48) else None.

Fixpoint drop_spaces (cs : list ascii) : list ascii :=
  match cs with
  | c :: cs' => if is_py_space c then drop_spaces cs' else cs
  | [] => []
  end.

(** The run of digits and underscores at the front of [cs]: its value, its
    number of digits, and what follows it.  There is none when the run is
    empty, starts or ends with an underscore, or has two underscores in a
    row. *)
Fixpoint scan_digits (acc : Z) (digits : nat) (after_digit : bool) (cs : list ascii)
    : option (Z * nat * list ascii) :=
  match cs with
  | [] => if after_digit then Some (acc, digits, []) else None
  | c :: cs' =>
      match digit_of c with
      | Some d => scan_digits (10 * acc + d) (S digits) true cs'
      | None =>
          if Ascii.eqb c "_"
          then (if after_digit then scan_digits acc digits false cs' else None)
          else (if after_digit then Some (acc, digits, c :: cs') else None)
      end
  end.

Inductive IntParse : Type :=
  | IntValue (n : Z)
  | IntTooLong (digits : nat)
  | IntInvalid.

Definition max_str_digits : nat := 4300.

Definition parse_int (s : string) : IntParse :=
  let cs := drop_spaces (list_ascii_of_string s) in
  let signed :=
    match cs with
    | c :: cs' =>
        if Ascii.eqb c "-" then (true, cs')
        else if Ascii.eqb c "+" then (false, cs')
        else (false, cs)
    | [] => (false, [])
    end in
  match scan_digits 0 0 false signed.2 with
  | None => IntInvalid
  | Some (value, digits, rest) =>
      if (max_str_digits <? digits)%nat then IntTooLong digits
      else match drop_spaces rest with
           | [] => IntValue (if signed.1 then - value else value)
           | _ :: _ => IntInvalid
           end
  end.

Definition int_literal (s : string) : option Z :=
  match parse_int s with
  | IntValue n => Some n
  | _ => None
  end.

(** [repr(s)] for a [str] of ASCII characters: single quotes unless the text
    has a single quote and no double quote; the quote and the backslash are
    escaped, tab, newline and carriage return have their letters, and the
    other control characters their two hexadecimal digits. *)
Fixpoint has_char (c : ascii) (s : string) : bool :=
  match s with
  | EmptyString => false
  | String d s' => Ascii.eqb d c || has_char c s'
  end.

Definition hex_digit (n : nat) : ascii :=
  nth n (list_ascii_of_string "0123456789abcdef") "0"%char.

Definition repr_char (quote c : ascii) : string :=
  let n := nat_of_ascii c in
  if Ascii.eqb c quote || Ascii.eqb c "\" then String "\" (String c EmptyString)
  else if (n =? 9)%nat then "\t"
  else if (n =? 10)%nat then "\n"
  else if (n =? 13)%nat then "\r"
  else if ((n <? 32) || (n =? 127))%nat
       then String "\" (String "x" (String (hex_digit (n / 16))
                                      (String (hex_digit (n mod 16)) EmptyString)))
  else String c EmptyString.

Fixpoint repr_chars (quote : ascii) (s : string) : string :=
  match s with
  | EmptyString => EmptyString
  | String c s' => repr_char quote c +:+ repr_chars quote s'
  end.

Definition repr (s : string) : string :=
  let quote : ascii :=
    if has_char "'" s && negb (has_char "034" s) then "034"%char else "'"%char in
  String quote (repr_chars quote s +:+ String quote EmptyString).

(** The message of the [ValueError] of [int(s)]; the literal is shown by
    the first 200 characters of its [repr]. *)
Definition int_error (s : string) : string :=
  match parse_int s with
  | IntTooLong digits =>
      "Exceeds the limit (4300 digits) for integer string conversion: value has "
      +:+ pretty digits
      +:+ " digits; use sys.set_int_max_str_digits() to increase the limit"
  | _ => "invalid literal for int() with base 10: " +:+ String.substring 0 200 (repr s)
  end.

Definition int (s : string) : result Z :=
  match int_literal s with
  | Some n => Ok n
  | None => Raise (ValueError (int_error s))
  end.

(** Every character of [s] is an ASCII character. *)
Fixpoint is_ascii (s : string) : bool :=
  match s with
  | EmptyString => true
  | String c s' => (nat_of_ascii c <? 128)%nat && is_ascii s'
  end.

(** ** Data model

    The schema classes come from the library [openapi_schema_pydantic]; only
    the fields the generator reads are kept, with the shapes the generator
    and the spec's data model give them: a parameter has a schema or a
    reference, a request body and a response have media-type keyed content,
    a media type may lack its schema.  [Schema] itself is opaque to the
    generator, which hands it to the type-conversion collaborator, so the
    model is parametric in it. *)

Record Reference : Type := mkReference { ref : string }.

Inductive SchemaOrRef (Schema : Type) : Type :=
  | IsReference (r : Reference)
  | IsSchema (s : Schema).
Arguments IsReference {Schema} r.
Arguments IsSchema {Schema} s.

Record OpParameter (Schema : Type) : Type := mkParameter {
  name : string;
  param_in : string;
  required : bool;
  param_schema : SchemaOrRef Schema
}.

Record MediaType (Schema : Type) : Type := mkMediaType {
  media_type_schema : option (SchemaOrRef Schema)
}.

Record RequestBody (Schema : Type) : Type := mkRequestBody {
  request_content : gmap string (MediaType Schema)
}.

Record Response (Schema : Type) : Type := mkResponse {
  response_content : option (gmap string (MediaType Schema))
}.

Record Operation (Schema : Type) : Type := mkOperation {
  operationId : option string;
  parameters : option (list (OpParameter Schema));
  requestBody : option (RequestBody Schema);
  responses : option (list (string * Response Schema));
  tags : option (list string)
}.

Record PathItem (Schema : Type) : Type := mkPathItem {
  path_get : option (Operation Schema);
  path_post : option (Operation Schema);
  path_put : option (Operation Schema);
  path_delete : option (Operation Schema);
  path_options : option (Operation Schema);
  path_head : option (Operation Schema);
  path_patch : option (Operation Schema);
  path_trace : option (Operation Schema)
}.

(** Modelled from the spec: the classes [TypeConversion], [OpReturnType],
    [ServiceOperation], [Service] and [LibraryConfig] of
    [openapi_python_generator.models], whose declarations are not part of
    the source at hand; the fields are those the generator sets and reads,
    typed as the spec's data model describes them. *)
Record TypeConversion : Type := mkTypeConversion {
  original_type : string;
  converted_type : string;
  import_types : option (list string)
}.

(** Modelled from the spec: a status code is a string or an integer; it is
    the string ["200"] on the early exits of the resolver and the integer
    read from the response key otherwise. *)
Inductive StatusCode : Type :=
  | StatusStr (s : string)
  | StatusInt (n : Z).

(** Modelled from the spec: [OpReturnType], with [list_type] absent unless set. *)
Record OpReturnType : Type := mkOpReturnType {
  type : option TypeConversion;
  status_code : StatusCode;
  complex_type : bool;
  list_type : option string
}.

(** Modelled from the spec: [ServiceOperation]; [tag] is absent until it is
    assigned. *)
Record ServiceOperation (Schema : Type) : Type := mkServiceOperation {
  params : list string;
  operation_id : string;
  query_params : list string;
  return_type : OpReturnType;
  operation : Operation Schema;
  pathItem : PathItem Schema;
  content : string;
  async_client : bool;
  body_param : option string;
  path_name : string;
  method : string;
  tag : option string
}.

(** Modelled from the spec: [Service]; [service_content] and
    [service_async_client] are its fields [content] and [async_client]. *)
Record Service (Schema : Type) : Type := mkService {
  file_name : string;
  operations : list (ServiceOperation Schema);
  service_content : string;
  service_async_client : bool;
  library_import : string
}.

(** Modelled from the spec: [LibraryConfig], the per-library configuration. *)
Record LibraryConfig : Type := mkLibraryConfig {
  template_name : string;
  include_sync : bool;
  include_async : bool;
  library_name : string
}.

Definition HTTP_OPERATIONS : list string :=
  ["get"; "post"; "put"; "delete"; "options"; "head"; "patch"; "trace"].

(** [path.__getattribute__(http_operation)] *)
Definition getattribute {Schema : Type} (path : PathItem Schema) (http_operation : string)
    : result (option (Operation Schema)) :=
  if String.eqb http_operation "get" then Ok (path_get path)
  else if String.eqb http_operation "post" then Ok (path_post path)
  else if String.eqb http_operation "put" then Ok (path_put path)
  else if String.eqb http_operation "delete" then Ok (path_delete path)
  else if String.eqb http_operation "options" then Ok (path_options path)
  else if String.eqb http_operation "head" then Ok (path_head path)
  else if String.eqb http_operation "patch" then Ok (path_patch path)
  else if String.eqb http_operation "trace" then Ok (path_trace path)
  else Raise (AttributeError ("'PathItem' object has no attribute '" +:+ http_operation +:+ "'")).

(** [str(tag)] inside an f-string, for the optional tag of a descriptor. *)
Definition tag_str (t : option string) : string :=
  match t with
  | Some s => s
  | None => "None"
  end.

(** ** The generator *)

Section Generator.

Context {Schema : Type}.

(** The type-conversion collaborator [type_converter(schema, required)] of
    [model_generator], consumed as a black box. *)
Variable type_converter : Schema -> bool -> TypeConversion.

(** What the collaborator does when it is handed [None] instead of a
    schema, which happens for a JSON request body without a schema. *)
Variable type_converter_none : bool -> result TypeConversion.

(** The template collaborator: the template named [template_name] of
    [JINJA_ENV], rendered with the fields of the descriptor as context. *)
Variable render : string -> ServiceOperation Schema -> string.

Definition generate_body_param (operation : Operation Schema) : option string :=
  match requestBody operation with
  | None => None
  | Some _ => Some "data"
  end.

Definition _generate_params_from_content (content : option (SchemaOrRef Schema))
    : result string :=
  match content with
  | Some (IsReference r) => Ok ("data : " +:+ short_name (ref r))
  | Some (IsSchema s) => Ok ("data : " +:+ converted_type (type_converter s true))
  | None =>
      let* conversion := type_converter_none true in
      Ok ("data : " +:+ converted_type conversion)
  end.

(** The string appended for one declared parameter. *)
Definition param_declaration (param : OpParameter Schema) : string :=
  match param_schema param with
  | IsSchema s =>
      (name param +:+ " : " +:+ converted_type (type_converter s (required param)))
      +:+ (if required param then "" else " = None")
  | IsReference r =>
      (name param +:+ " : " +:+ short_name (ref r))
      +:+ (if required param then "" else " = None")
  end.

Definition generate_params (operation : Operation Schema) : result (list string) :=
  match parameters operation, requestBody operation with
  | None, None => Ok []
  | _, _ =>
      let params := [] in
      let params :=
        match parameters operation with
        | Some ps => fold_left (fun params param => params ++ [param_declaration param]) ps params
        | None => params
        end in
      match requestBody operation with
      | Some body =>
          match request_content body !! "application/json" with
          | Some media =>
              let* declaration := _generate_params_from_content (media_type_schema media) in
              Ok (params ++ [declaration])
          | None =>
              Raise (Exception "Unknown media type schema type: <class 'dict'>")
          end
      | None => Ok params
      end
  end.

Definition generate_operation_id (operation : Operation Schema) (http_op : string)
    : result string :=
  match operationId operation with
  | Some id => Ok (replace "-" "_" id)
  | None => Raise (AttributeError "'NoneType' object has no attribute 'replace'")
  end.

Definition generate_query_params (operation : Operation Schema) : list string :=
  match parameters operation with
  | None => []
  | Some ps =>
      fold_left
        (fun params param =>
           if String.eqb (param_in param) "query"
           then params ++ ["'" +:+ name param +:+ "' : " +:+ name param]
           else params)
        ps []
  end.

(** The comprehension building [good_responses]: every key that starts
    with ["2"] is converted by [int], in the order of the mapping. *)
Definition good_responses (items : list (string * Response Schema))
    : result (list (Z * Response Schema)) :=
  for_each
    (fun good item =>
       if startswith item.1 "2"
       then let* code := int item.1 in Ok (good ++ [(code, item.2)])
       else Ok good)
    items [].

(** [xs[0]] *)
Definition first_item {A : Type} (xs : list A) : result A :=
  match xs with
  | x :: _ => Ok x
  | [] => Raise (IndexError "list index out of range")
  end.

(** The early exits pass [status_code="200"] and [complex_type="False"] as
    text; the status code is kept as the text it is, and [complex_type],
    a boolean field of [OpReturnType], holds [false]. *)
Definition generate_return_type (operation : Operation Schema) : result OpReturnType :=
  match responses operation with
  | None => Ok (mkOpReturnType None (StatusStr "200") false None)
  | Some items =>
      let* good := good_responses items in
      match good with
      | [] => Ok (mkOpReturnType None (StatusStr "200") false None)
      | (code, response) :: _ =>
          match response_content response with
          | None => Ok (mkOpReturnType None (StatusInt code) false None)
          | Some media_types =>
              match media_types !! "application/json" with
              | Some media =>
                  match media_type_schema media with
                  | Some (IsReference r) =>
                      let type_conv :=
                        mkTypeConversion (ref r) (short_name (ref r)) (Some [short_name (ref r)]) in
                      Ok (mkOpReturnType (Some type_conv) (StatusInt code) true None)
                  | Some (IsSchema s) =>
                      let converted_result := type_converter s true in
                      let* list_type :=
                        if contains "array" (original_type converted_result)
                        then match import_types converted_result with
                             | Some names =>
                                 let* first := first_item names in Ok (Some first)
                             | None => Ok None
                             end
                        else Ok None in
                      Ok (mkOpReturnType (Some converted_result) (StatusInt code)
                            (match import_types converted_result with
                             | Some names => (0 <? List.length names)%nat
                             | None => false
                             end)
                            list_type)
                  | None => Raise (Exception "Unknown media type schema type")
                  end
              | None => Raise (Exception "Unknown media type schema type")
              end
          end
      end
  end.

Definition set_content (so : ServiceOperation Schema) (text : string)
    : ServiceOperation Schema :=
  mkServiceOperation (params so) (operation_id so) (query_params so) (return_type so)
    (operation so) (pathItem so) text (async_client so) (body_param so)
    (path_name so) (method so) (tag so).

Definition set_tag (so : ServiceOperation Schema) (t : string) : ServiceOperation Schema :=
  mkServiceOperation (params so) (operation_id so) (query_params so) (return_type so)
    (operation so) (pathItem so) (content so) (async_client so) (body_param so)
    (path_name so) (method so) (Some t).

(** The nested [generate_service_operation]; [path], [http_operation] and
    [library_config] are the variables it closes over.  The trailing
    [compile] check only prints a diagnostic and is left out. *)
Definition generate_service_operation (library_config : LibraryConfig)
    (path : PathItem Schema) (http_operation : string)
    (op : Operation Schema) (path_name : string) (async_type : bool)
    : result (ServiceOperation Schema) :=
  let* params := generate_params op in
  let* operation_id := generate_operation_id op http_operation in
  let query_params := generate_query_params op in
  let* return_type := generate_return_type op in
  let body_param := generate_body_param op in
  let so :=
    mkServiceOperation params
      (if async_type then "async_" +:+ operation_id else operation_id)
      query_params return_type op path "" async_type body_param path_name
      http_operation None in
  let so := set_content so (render (template_name library_config) so) in
  let so :=
    match tags op with
    | Some (t :: _) => set_tag so t
    | _ => so
    end in
  Ok so.

(** One turn of the inner loop over [HTTP_OPERATIONS]. *)
Definition visit_operation (library_config : LibraryConfig) (path_name : string)
    (path : PathItem Schema) (service_ops : list (ServiceOperation Schema))
    (http_operation : string) : result (list (ServiceOperation Schema)) :=
  let* op := getattribute path http_operation in
  match op with
  | None => Ok service_ops
  | Some op =>
      let* service_ops :=
        if include_sync library_config
        then let* sync_so :=
               generate_service_operation library_config path http_operation op path_name false in
             Ok (service_ops ++ [sync_so])
        else Ok service_ops in
      if include_async library_config
      then let* async_so :=
             generate_service_operation library_config path http_operation op path_name true in
           Ok (service_ops ++ [async_so])
      else Ok service_ops
  end.

(** The two nested loops that fill [service_ops]. *)
Definition collect_service_ops (paths : list (string * PathItem Schema))
    (library_config : LibraryConfig) : result (list (ServiceOperation Schema)) :=
  for_each
    (fun service_ops item =>
       for_each (visit_operation library_config item.1 item.2) HTTP_OPERATIONS service_ops)
    paths [].

(** [so.tag == tag] *)
Definition tag_eqb (a b : option string) : bool := bool_decide (a = b).

(** [set([so.tag for so in service_ops])] *)
Definition observed_tags (service_ops : list (ServiceOperation Schema)) : gset (option string) :=
  list_to_set (map (@tag Schema) service_ops).

Definition sync_service (library_config : LibraryConfig)
    (service_ops : list (ServiceOperation Schema)) (t : option string) : Service Schema :=
  let members := filter (fun so => tag_eqb (tag so) t && negb (async_client so) = true) service_ops in
  mkService (tag_str t +:+ "_service") members
    (join (String "010" "") (map (@content Schema) members))
    false (library_name library_config).

Definition async_service (library_config : LibraryConfig)
    (service_ops : list (ServiceOperation Schema)) (t : option string) : Service Schema :=
  let members := filter (fun so => tag_eqb (tag so) t && async_client so = true) service_ops in
  mkService ("async_" +:+ tag_str t +:+ "_service") members
    (join (String "010" "") (map (@content Schema) members))
    true (library_name library_config).

(** The two grouping loops over the set of tags, each appending one
    service per tag. *)
Definition group_services (library_config : LibraryConfig)
    (service_ops : list (ServiceOperation Schema)) : list (Service Schema) :=
  let services := [] in
  let tags := elements (observed_tags service_ops) in
  let services :=
    fold_left (fun services t => services ++ [sync_service library_config service_ops t])
      tags services in
  let services :=
    fold_left (fun services t => services ++ [async_service library_config service_ops t])
      tags services in
  services.

Definition generate_services (paths : list (string * PathItem Schema))
    (library_config : LibraryConfig) : result (list (Service Schema)) :=
  let* service_ops := collect_service_ops paths library_config in
  Ok (group_services library_config service_ops).

End Generator.

(** ** Notions used by the statements *)

Section Notions.

Context {Schema : Type}.

(** The declared parameters of an operation, none when the list is absent. *)
Definition declared_parameters (op : Operation Schema) : list (OpParameter Schema) :=
  match parameters op with
  | Some ps => ps
  | None => []
  end.

(** The operation declares a request body with an [application/json] entry. *)
Definition declares_json_body (op : Operation Schema) : bool :=
  match requestBody op with
  | Some body => bool_decide (is_Some (request_content body !! "application/json"))
  | None => false
  end.

(** The items of a responses mapping whose key starts with ["2"]. *)
Definition two_xx (items : list (string * Response Schema)) : list (string * Response Schema) :=
  List.filter (fun item => startswith item.1 "2") items.

Definition with_responses (op : Operation Schema)
    (rs : option (list (string * Response Schema))) : Operation Schema :=
  mkOperation (operationId op) (parameters op) (requestBody op) rs (tags op).

Definition set_required (b : bool) (p : OpParameter Schema) : OpParameter Schema :=
  mkParameter (name p) (param_in p) b (param_schema p).

Definition map_parameters (g : OpParameter Schema -> OpParameter Schema)
    (op : Operation Schema) : Operation Schema :=
  mkOperation (operationId op) (map g <$> parameters op) (requestBody op)
    (responses op) (tags op).

(** The query-parameter entry of one parameter. *)
Definition query_entry (p : OpParameter Schema) : string :=
  "'" +:+ name p +:+ "' : " +:+ name p.

(** The collaborator reported at least one auxiliary import name. *)
Definition has_import (c : TypeConversion) : bool :=
  match import_types c with
  | Some (_ :: _) => true
  | _ => false
  end.

(** [op] is the operation of method [http_operation] on some path of [paths]. *)
Definition visited (paths : list (string * PathItem Schema)) (op : Operation Schema) : Prop :=
  exists path_name path http_operation,
    In (path_name, path) paths /\ In http_operation HTTP_OPERATIONS /\
    getattribute path http_operation = Ok (Some op).


(** The integer a status-code key stands for, [0] when it stands for none. *)
Definition key_code (key : string) : Z :=
  match int_literal key with
  | Some n => n
  | None => 0
  end.

(** Every key that starts with ["2"] is an integer literal. *)
Definition integer_keys (items : list (string * Response Schema)) : bool :=
  forallb (fun item => bool_decide (is_Some (int_literal item.1))) (two_xx items).

(** The result of the early exits of the return-type resolver. *)
Definition no_type_200 : OpReturnType := mkOpReturnType None (StatusStr "200") false None.

End Notions.

(** The type name a parameter is declared with. *)
Definition declared_type {Schema : Type} (type_converter : Schema -> bool -> TypeConversion)
    (p : OpParameter Schema) : string :=
  match param_schema p with
  | IsSchema s => converted_type (type_converter s (required p))
  | IsReference r => short_name (ref r)
  end.

(** No character of [s] is [c]. *)
Fixpoint lacks_char (c : ascii) (s : string) : bool :=
  match s with
  | EmptyString => true
  | String d s' => negb (Ascii.eqb d c) && lacks_char c s'
  end.

(** ** Sample inputs

    A collaborator given by a table: a sample schema is the conversion the
    collaborator returns for it. *)

Definition sample_converter (s : TypeConversion) (required : bool) : TypeConversion := s.

Definition sample_converter_none (required : bool) : result TypeConversion :=
  Raise (AttributeError "'NoneType' object has no attribute 'allOf'").

Definition sample_render (template : string) (so : ServiceOperation TypeConversion) : string :=
  template +:+ " " +:+ operation_id so +:+ "(" +:+ join ", " (params so) +:+ ")".

Definition pet_list : TypeConversion :=
  mkTypeConversion "array<#/components/schemas/Pet>" "List[Pet]" (Some ["Pet"]).

Definition integer : TypeConversion := mkTypeConversion "integer" "int" None.

Definition bare_array : TypeConversion := mkTypeConversion "array<object>" "List[Any]" (Some []).

Definition json_only (schema : SchemaOrRef TypeConversion)
    : gmap string (MediaType TypeConversion) :=
  {[ "application/json" := mkMediaType (Some schema) ]}.

Definition plain_text_only : gmap string (MediaType TypeConversion) :=
  {[ "text/plain" := mkMediaType (Some (IsSchema integer)) ]}.

Definition no_content : Response TypeConversion := mkResponse None.

Definition limit_param : OpParameter TypeConversion :=
  mkParameter "limit" "query" false (IsSchema integer).

Definition pet_id_param : OpParameter TypeConversion :=
  mkParameter "pet-id" "path" true (IsSchema integer).

(** A required parameter whose reference ends in the text of a default. *)
Definition odd_ref_param : OpParameter TypeConversion :=
  mkParameter "p" "query" true (IsReference (mkReference "#/components/schemas/X = None")).

Definition list_pets : Operation TypeConversion :=
  mkOperation (Some "list-pets") (Some [limit_param; pet_id_param]) None
    (Some [("200", mkResponse (Some (json_only (IsSchema pet_list)))); ("404", no_content)])
    (Some ["pets"; "store"]).

Definition create_pet : Operation TypeConversion :=
  mkOperation (Some "create-pet") (Some [pet_id_param])
    (Some (mkRequestBody (json_only (IsReference (mkReference "#/components/schemas/Pet")))))
    (Some [("201", no_content)]) (Some ["pets"]).

Definition upload_text : Operation TypeConversion :=
  mkOperation (Some "upload") None (Some (mkRequestBody plain_text_only))
    (Some [("200", no_content)]) None.

Definition download_text : Operation TypeConversion :=
  mkOperation (Some "download") None None
    (Some [("200", mkResponse (Some plain_text_only))]) None.

Definition wildcard_after : Operation TypeConversion :=
  mkOperation (Some "ranges") None None
    (Some [("200", no_content); ("2XX", no_content)]) None.

Definition anonymous : Operation TypeConversion :=
  mkOperation None None None None None.

Definition bare_array_op : Operation TypeConversion :=
  mkOperation (Some "bare") None None
    (Some [("200", mkResponse (Some (json_only (IsSchema bare_array))))]) None.

Definition empty_path : PathItem TypeConversion :=
  mkPathItem None None None None None None None None.

Definition pets_path : PathItem TypeConversion :=
  mkPathItem (Some list_pets) (Some create_pet) None None None None None None.

Definition upload_path : PathItem TypeConversion :=
  mkPathItem None None (Some upload_text) None None None None None.

Definition sync_only : LibraryConfig := mkLibraryConfig "httpx.jinja2" true false "httpx".

Definition sync_and_async : LibraryConfig := mkLibraryConfig "httpx.jinja2" true true "httpx".

Definition sample_services (paths : list (string * PathItem TypeConversion))
    (library_config : LibraryConfig) : result (list (Service TypeConversion)) :=
  generate_services sample_converter sample_converter_none sample_render paths library_config.


(** ** Notions used for whole runs *)

Section RunNotions.

Context {Schema : Type}.

(** The variants a configuration asks for, synchronous first. *)
Definition variants (cfg : LibraryConfig) : list bool :=
  (if include_sync cfg then [false] else []) ++ (if include_async cfg then [true] else []).

(** What identifies a descriptor within a run. *)
Definition descriptor_key (so : ServiceOperation Schema) : string * string * bool :=
  (path_name so, method so, async_client so).

(** The keys of the descriptors of one method of one path. *)
Definition method_keys (cfg : LibraryConfig) (path_name : string) (path : PathItem Schema)
    (http_operation : string) : list (string * string * bool) :=
  match getattribute path http_operation with
  | Ok (Some _) => map (fun async_type => (path_name, http_operation, async_type)) (variants cfg)
  | _ => []
  end.

(** The keys of the descriptors of a run: paths in order, methods in the order
    of [HTTP_OPERATIONS], and the variants of each operation. *)
Definition expected_keys (paths : list (string * PathItem Schema)) (cfg : LibraryConfig)
    : list (string * string * bool) :=
  flat_map (fun item => flat_map (method_keys cfg item.1 item.2) HTTP_OPERATIONS) paths.

(** The first tag of an operation, if it has one. *)
Definition first_tag (op : Operation Schema) : option string :=
  match tags op with
  | Some (t :: _) => Some t
  | _ => None
  end.

(** A descriptor as the template collaborator receives it: without content
    and without tag. *)
Definition unrendered (so : ServiceOperation Schema) : ServiceOperation Schema :=
  mkServiceOperation (params so) (operation_id so) (query_params so) (return_type so)
    (operation so) (pathItem so) "" (async_client so) (body_param so)
    (path_name so) (method so) None.

(** The number of descriptors held by a list of services. *)
Definition member_count (services : list (Service Schema)) : nat :=
  sum_list (map (fun svc => List.length (operations svc)) services).

End RunNotions.

(** ** Responses that may be references

    [openapi_schema_pydantic] lets a value of the responses mapping be a
    [Reference] as well as a [Response].  The resolver reads [content] on
    the first candidate, which a [Reference] does not have. *)

Inductive ResponseValue (Schema : Type) : Type :=
  | InlineResponse (response : Response Schema)
  | ReferencedResponse (r : Reference).
Arguments InlineResponse {Schema} response.
Arguments ReferencedResponse {Schema} r.

Section ResolverOnValues.

Context {Schema : Type}.
Variable type_converter : Schema -> bool -> TypeConversion.

(** The comprehension building [good_responses], over such values. *)
Definition good_response_values (items : list (string * ResponseValue Schema))
    : result (list (Z * ResponseValue Schema)) :=
  for_each
    (fun good item =>
       if startswith item.1 "2"
       then let* code := int item.1 in Ok (good ++ [(code, item.2)])
       else Ok good)
    items [].

(** [value.content] *)
Definition content_of (value : ResponseValue Schema)
    : result (option (gmap string (MediaType Schema))) :=
  match value with
  | InlineResponse response => Ok (response_content response)
  | ReferencedResponse _ => Raise (AttributeError "'Reference' object has no attribute 'content'")
  end.

(** [generate_return_type] as a function of [operation.responses], whose
    values may be references. *)
Definition resolve_responses (responses : option (list (string * ResponseValue Schema)))
    : result OpReturnType :=
  match responses with
  | None => Ok (mkOpReturnType None (StatusStr "200") false None)
  | Some items =>
      let* good := good_response_values items in
      match good with
      | [] => Ok (mkOpReturnType None (StatusStr "200") false None)
      | (code, value) :: _ =>
          let* content := content_of value in
          match content with
          | None => Ok (mkOpReturnType None (StatusInt code) false None)
          | Some media_types =>
              match media_types !! "application/json" with
              | Some media =>
                  match media_type_schema media with
                  | Some (IsReference r) =>
                      let type_conv :=
                        mkTypeConversion (ref r) (short_name (ref r)) (Some [short_name (ref r)]) in
                      Ok (mkOpReturnType (Some type_conv) (StatusInt code) true None)
                  | Some (IsSchema s) =>
                      let converted_result := type_converter s true in
                      let* list_type :=
                        if contains "array" (original_type converted_result)
                        then match import_types converted_result with
                             | Some names =>
                                 let* first := first_item names in Ok (Some first)
                             | None => Ok None
                             end
                        else Ok None in
                      Ok (mkOpReturnType (Some converted_result) (StatusInt code)
                            (match import_types converted_result with
                             | Some names => (0 <? List.length names)%nat
                             | None => false
                             end)
                            list_type)
                  | None => Raise (Exception "Unknown media type schema type")
                  end
              | None => Raise (Exception "Unknown media type schema type")
              end
          end
      end
  end.

(** A responses mapping all of whose values are responses. *)
Definition inline_responses (items : list (string * Response Schema))
    : list (string * ResponseValue Schema) :=
  map (fun item => (item.1, InlineResponse item.2)) items.

End ResolverOnValues.

(** * Properties *)

(** ** Loops *)

Lemma fold_left_snoc_map {A B : Type} (f : A -> B) (l : list A) (init : list B) :
  fold_left (fun acc x => acc ++ [f x]) l init = init ++ map f l.
Proof.
  revert init. induction l as [|x l IH]; intros init; simpl.
  - by rewrite app_nil_r.
  - rewrite IH. by rewrite <- app_assoc.
Qed.

Lemma fold_left_snoc_filter {A B : Type} (keep : A -> bool) (f : A -> B)
    (l : list A) (init : list B) :
  fold_left (fun acc x => if keep x then acc ++ [f x] else acc) l init
  = init ++ map f (List.filter keep l).
Proof.
  revert init. induction l as [|x l IH]; intros init; simpl.
  - by rewrite app_nil_r.
  - rewrite IH. destruct (keep x); simpl; [by rewrite <- app_assoc | done].
Qed.

(** A loop raises as soon as the body raises at one of its items, whatever
    the accumulator is by then. *)
Lemma for_each_raises {A S : Type} (body : S -> A -> result S) (items : list A) (x : A) :
  In x items ->
  (forall s, exists e, body s x = Raise e) ->
  forall s, exists e, for_each body items s = Raise e.
Proof.
  intros Hin Hx. induction items as [|y items IH]; [destruct Hin |].
  intros s. simpl. destruct Hin as [-> | Hin].
  - destruct (Hx s) as [e ->]. by exists e.
  - destruct (body s y) as [s' | e]; simpl; [by apply IH | by exists e].
Qed.

(** ** Strings *)

Lemma list_ascii_of_string_app (a b : string) :
  list_ascii_of_string (a +:+ b) = list_ascii_of_string a ++ list_ascii_of_string b.
Proof. induction a as [|c a IH]; simpl; [done | by rewrite IH]. Qed.

Lemma starts_with_chars_app (p l : list ascii) : starts_with_chars p (p ++ l) = true.
Proof.
  induction p as [|c p IH]; simpl; [done |].
  by rewrite Ascii.eqb_refl, IH.
Qed.

Lemma endswith_app (s p : string) : endswith (s +:+ p) p = true.
Proof.
  unfold endswith. rewrite list_ascii_of_string_app, rev_app_distr.
  apply starts_with_chars_app.
Qed.

Lemma split_nonempty (sep : ascii) (s : string) : split sep s <> [].
Proof.
  destruct s as [|c s]; simpl; [done |].
  destruct (Ascii.eqb c sep); [done |]. by destruct (split sep s).
Qed.

Lemma lacks_char_Forall (c : ascii) (s : string) :
  lacks_char c s = true ->
  Forall (fun d => Ascii.eqb d c = false) (list_ascii_of_string s).
Proof.
  induction s as [|d s IH]; simpl; [constructor |].
  intros [Hd Hs]%andb_true_iff. constructor; [| by apply IH].
  by destruct (Ascii.eqb d c).
Qed.

(** Behind text without ["="], the separator [" : "] cannot complete the
    default [" = None"]. *)
Lemma no_default_behind_separator (t rest : list ascii) :
  Forall (fun d => Ascii.eqb d "=" = false) t ->
  starts_with_chars (List.rev (list_ascii_of_string " = None"))
    (t ++ " "%char :: ":"%char :: " "%char :: rest) = false.
Proof.
  intros Ht. cbn [List.rev list_ascii_of_string app].
  do 6 (destruct t as [|a t]; [reflexivity |];
        apply Forall_cons_iff in Ht as [Ha Ht];
        cbn [app starts_with_chars];
        match goal with
        | |- Ascii.eqb ?c a && _ = false =>
            destruct (Ascii.eqb_spec c a) as [<- | _]; [cbn [andb] | reflexivity]
        end;
        try discriminate Ha; clear Ha).
Qed.

Lemma append_empty_r (s : string) : s +:+ "" = s.
Proof.
  induction s as [|c s IH]; [done |].
  change (String c (s +:+ "") = String c s). by f_equal.
Qed.

(** Unfolding the generator's functions, by name. *)
Ltac open_generate_params := unfold generate_params.
Ltac open_param_declaration := unfold param_declaration, declared_type.
Ltac open_generate_return_type := unfold generate_return_type.
Ltac open_generate_service_operation := unfold generate_service_operation.
Ltac open_visit_operation := unfold visit_operation.
Ltac open_collect_service_ops := unfold collect_service_ops.
Ltac open_generate_services := unfold generate_services.

Section Properties.

Context {Schema : Type}.
Variable type_converter : Schema -> bool -> TypeConversion.
Variable type_converter_none : bool -> result TypeConversion.
Variable render : string -> ServiceOperation Schema -> string.

Local Abbreviation generate_params := (generate_params type_converter type_converter_none).
Local Abbreviation body_declaration :=
  (_generate_params_from_content type_converter type_converter_none).
Local Abbreviation param_declaration := (param_declaration type_converter).
Local Abbreviation declared_type := (declared_type type_converter).
Local Abbreviation generate_return_type := (generate_return_type type_converter).
Local Abbreviation generate_service_operation :=
  (generate_service_operation type_converter type_converter_none render).
Local Abbreviation visit_operation :=
  (visit_operation type_converter type_converter_none render).
Local Abbreviation collect_service_ops :=
  (collect_service_ops type_converter type_converter_none render).
Local Abbreviation generate_services :=
  (generate_services type_converter type_converter_none render).

(** ** Parameter resolver *)

(** The accumulating loops of [generate_params], read as one expression. *)
Lemma generate_params_unfold (op : Operation Schema) :
  generate_params op =
  let declared := map param_declaration (declared_parameters op) in
  match requestBody op with
  | None => Ok declared
  | Some body =>
      match request_content body !! "application/json" with
      | Some media =>
          let* declaration := body_declaration (media_type_schema media) in
          Ok (declared ++ [declaration])
      | None => Raise (Exception "Unknown media type schema type: <class 'dict'>")
      end
  end.
Proof.
  open_generate_params; unfold declared_parameters.
  destruct (parameters op) as [ps|], (requestBody op) as [body|]; simpl;
    try rewrite fold_left_snoc_map; simpl; done.
Qed.

Lemma body_declaration_named_data (content : option (SchemaOrRef Schema)) (d : string) :
  body_declaration content = Ok d -> exists T, d = "data : " +:+ T.
Proof.
  unfold _generate_params_from_content.
  destruct content as [[r|s]|]; simpl.
  - intros [= <-]. by eexists.
  - intros [= <-]. by eexists.
  - destruct (type_converter_none true) as [c|e]; simpl; [| done].
    intros [= <-]. by eexists.
Qed.

Lemma param_declaration_eq (p : OpParameter Schema) :
  param_declaration p
  = (name p +:+ " : " +:+ declared_type p) +:+ (if required p then "" else " = None").
Proof. open_param_declaration. by destruct (param_schema p). Qed.

(** C5. The parameter list is the declarations of the declared parameters
    in schema order, followed by one body parameter named [data], placed
    last, exactly when the operation declares a JSON request body; with
    neither parameters nor request body the list is empty. *)
Theorem generate_params_order (op : Operation Schema) :
  let declared := map param_declaration (declared_parameters op) in
  (requestBody op = None -> generate_params op = Ok declared) /\
  (forall body media schema,
      requestBody op = Some body ->
      request_content body !! "application/json" = Some media ->
      media_type_schema media = Some schema ->
      exists T, generate_params op = Ok (declared ++ ["data : " +:+ T])) /\
  (forall l, generate_params op = Ok l ->
      if declares_json_body op
      then exists T, l = declared ++ ["data : " +:+ T]
      else l = declared) /\
  (parameters op = None -> requestBody op = None -> generate_params op = Ok []).
Proof.
  intros declared. subst declared. rewrite generate_params_unfold. cbv zeta.
  repeat split.
  - by intros ->.
  - intros body media schema -> -> Hs. rewrite Hs.
    destruct schema as [r|s]; simpl; by eexists.
  - intros l. unfold declares_json_body.
    destruct (requestBody op) as [body|]; [| by intros [= <-]].
    destruct (request_content body !! "application/json") as [media|] eqn:Hm; [| done].
    rewrite bool_decide_eq_true_2 by (by eexists).
    destruct (body_declaration (media_type_schema media)) as [d|e] eqn:Hd; simpl; [| done].
    intros [= <-]. apply body_declaration_named_data in Hd as [T ->]. by exists T.
  - intros Hp ->. unfold declared_parameters. by rewrite Hp.
Qed.

(** C6, amended. In the resolved list the entry of a declared parameter is
    [name : type] followed by [ = None] when the parameter is not required
    and by nothing when it is required; when the type name has no ["="] in
    it, the entry ends with [ = None] if and only if the parameter is not
    required. *)
Theorem declared_parameter_default (op : Operation Schema) (l : list string)
    (i : nat) (p : OpParameter Schema) :
  generate_params op = Ok l ->
  declared_parameters op !! i = Some p ->
  exists d,
    l !! i = Some d /\
    (required p = false ->
       d = (name p +:+ " : " +:+ declared_type p) +:+ " = None" /\
       endswith d " = None" = true) /\
    (required p = true -> d = name p +:+ " : " +:+ declared_type p) /\
    (lacks_char "=" (declared_type p) = true ->
       (endswith d " = None" = true <-> required p = false)).
Proof.
  intros Hl Hp. exists (param_declaration p). split.
  - assert (Hpre : exists tl, l = map param_declaration (declared_parameters op) ++ tl).
    { rewrite generate_params_unfold in Hl. cbv zeta in Hl.
      destruct (requestBody op) as [body|].
      - destruct (request_content body !! "application/json") as [media|]; [| done].
        destruct (body_declaration (media_type_schema media)) as [d|e]; simpl in Hl; [| done].
        injection Hl as <-. by eexists.
      - injection Hl as <-. exists []. by rewrite app_nil_r. }
    destruct Hpre as [tl ->].
    rewrite lookup_app_l.
    + by rewrite list_lookup_fmap, Hp.
    + rewrite length_map. by eapply lookup_lt_Some.
  - rewrite param_declaration_eq.
    assert (Hopt : endswith ((name p +:+ " : " +:+ declared_type p) +:+ " = None") " = None"
                   = true) by apply endswith_app.
    assert (Hreq : lacks_char "=" (declared_type p) = true ->
                   endswith (name p +:+ " : " +:+ declared_type p) " = None" = false).
    { intros Hno. unfold endswith.
      rewrite !list_ascii_of_string_app, !rev_app_distr.
      change (List.rev (list_ascii_of_string " : ")) with [" "; ":"; " "]%char.
      rewrite <- app_assoc. simpl app at 2.
      apply no_default_behind_separator, Forall_rev, lacks_char_Forall, Hno. }
    destruct (required p).
    + rewrite append_empty_r. repeat split; try done.
      * intros Hend. rewrite Hreq in Hend; done.
    + repeat split; try done.
Qed.

(** C7. The query-parameter list has one entry ['name' : name] for each
    declared parameter whose location is ["query"], in declaration order,
    and nothing else; the required flags play no part. *)
Theorem generate_query_params_entries (op : Operation Schema) :
  generate_query_params op
  = map query_entry
      (List.filter (fun p => String.eqb (param_in p) "query") (declared_parameters op))
  /\ forall flag : OpParameter Schema -> bool,
       generate_query_params (map_parameters (fun p => set_required (flag p) p) op)
       = generate_query_params op.
Proof.
  assert (Heq : forall o : Operation Schema,
             generate_query_params o
             = map query_entry
                 (List.filter (fun p => String.eqb (param_in p) "query")
                    (declared_parameters o))).
  { intros o. unfold generate_query_params, declared_parameters.
    destruct (parameters o) as [ps|]; [| done].
    exact (fold_left_snoc_filter (fun p => String.eqb (param_in p) "query") query_entry ps []). }
  split; [apply Heq |].
  intros flag. rewrite !Heq. unfold declared_parameters, map_parameters. simpl.
  destruct (parameters op) as [ps|]; simpl; [| done].
  induction ps as [|p ps IH]; simpl; [done |].
  destruct (String.eqb (param_in p) "query"); simpl; [by rewrite IH | done].
Qed.

(** ** Operation identifier and descriptor construction *)

Lemma generate_service_operation_params_raise (cfg : LibraryConfig) (path : PathItem Schema)
    (http_operation : string) (op : Operation Schema) (path_name : string)
    (async_type : bool) (e : PyError) :
  generate_params op = Raise e ->
  generate_service_operation cfg path http_operation op path_name async_type = Raise e.
Proof. intros H. open_generate_service_operation. by rewrite H. Qed.

Lemma visit_operation_raises (cfg : LibraryConfig) (path_name : string)
    (path : PathItem Schema) (http_operation : string) (op : Operation Schema) :
  getattribute path http_operation = Ok (Some op) ->
  include_sync cfg || include_async cfg = true ->
  (forall async_type, exists e,
      generate_service_operation cfg path http_operation op path_name async_type = Raise e) ->
  forall service_ops, exists e,
    visit_operation cfg path_name path service_ops http_operation = Raise e.
Proof.
  intros Hget Hflag Hso service_ops. open_visit_operation.
  rewrite Hget. simpl.
  destruct (include_sync cfg); simpl in *.
  - destruct (Hso false) as [e ->]. by exists e.
  - rewrite Hflag. destruct (Hso true) as [e ->]. by exists e.
Qed.

(** An operation whose descriptor cannot be built aborts the whole run as
    soon as one of the two variants is asked for. *)
Lemma generate_services_raises (paths : list (string * PathItem Schema))
    (cfg : LibraryConfig) (op : Operation Schema) :
  visited paths op ->
  include_sync cfg || include_async cfg = true ->
  (forall path http_operation path_name async_type, exists e,
      generate_service_operation cfg path http_operation op path_name async_type = Raise e) ->
  exists e, generate_services paths cfg = Raise e.
Proof.
  intros (path_name & path & http_operation & Hin & Hop & Hget) Hflag Hso.
  open_generate_services; open_collect_service_ops.
  destruct (for_each_raises
              (fun service_ops item =>
                 for_each (visit_operation cfg item.1 item.2) HTTP_OPERATIONS service_ops)
              paths (path_name, path) Hin) with (s := @nil (ServiceOperation Schema))
    as [e He].
  - intros s. cbn [fst snd]. apply for_each_raises with (x := http_operation); [done |].
    by apply visit_operation_raises with (op := op).
  - rewrite He. by exists e.
Qed.

(** C8. With a request body that has no [application/json] entry,
    [generate_params] raises, the exception leaves
    [generate_service_operation] as it is, in both variants, so that no
    descriptor is built, and a run that visits the operation raises too. *)
Theorem non_json_body_is_fatal (op : Operation Schema) (body : RequestBody Schema) :
  requestBody op = Some body ->
  request_content body !! "application/json" = None ->
  let fatal := Exception "Unknown media type schema type: <class 'dict'>" in
  generate_params op = Raise fatal /\
  (forall cfg path http_operation path_name async_type,
      generate_service_operation cfg path http_operation op path_name async_type
      = Raise fatal) /\
  (forall paths cfg,
      visited paths op -> include_sync cfg || include_async cfg = true ->
      exists e, generate_services paths cfg = Raise e).
Proof.
  intros Hbody Hjson fatal.
  assert (Hp : generate_params op = Raise fatal).
  { rewrite generate_params_unfold. cbv zeta. by rewrite Hbody, Hjson. }
  split; [done |]. split.
  - intros. by apply generate_service_operation_params_raise.
  - intros paths cfg Hv Hflag. apply generate_services_raises with (op := op); [done..|].
    intros. exists fatal. by apply generate_service_operation_params_raise.
Qed.

(** C9. The operation identifier is defined only when [operationId] is
    present, where it is that text with every hyphen replaced; when it is
    absent, [generate_operation_id] raises and no descriptor is built, in
    either variant. *)
Theorem operation_id_requires_operationId (op : Operation Schema) :
  (forall http_op v,
      generate_operation_id op http_op = Ok v ->
      exists id, operationId op = Some id /\ v = replace "-" "_" id) /\
  (operationId op = None ->
   (forall http_op, exists e, generate_operation_id op http_op = Raise e) /\
   (forall cfg path http_operation path_name async_type, exists e,
       generate_service_operation cfg path http_operation op path_name async_type
       = Raise e)).
Proof.
  unfold generate_operation_id. split.
  - intros http_op v. destruct (operationId op) as [id|]; [| done].
    intros [= <-]. by exists id.
  - intros Hnone. rewrite Hnone. split; [intros; by eexists |].
    intros. open_generate_service_operation; unfold generate_operation_id.
    rewrite Hnone. destruct (generate_params op) as [ps|e]; simpl; by eexists.
Qed.

(** ** Return-type resolver *)

(** Keys that do not start with ["2"] are passed over by the comprehension. *)
Lemma good_from_two_xx (items : list (string * Response Schema))
    (good : list (Z * Response Schema)) :
  for_each
    (fun good item =>
       if startswith item.1 "2"
       then let* code := int item.1 in Ok (good ++ [(code, item.2)])
       else Ok good)
    items good
  = for_each
      (fun good item =>
         if startswith item.1 "2"
         then let* code := int item.1 in Ok (good ++ [(code, item.2)])
         else Ok good)
      (two_xx items) good.
Proof.
  revert good. induction items as [|item items IH]; intros good; [done |].
  unfold two_xx. cbn [for_each List.filter].
  destruct (startswith item.1 "2") eqn:H2; cbn [bind for_each].
  - rewrite H2. destruct (int item.1) as [code|e]; simpl; [apply IH | done].
  - apply IH.
Qed.

Lemma good_responses_two_xx (items : list (string * Response Schema)) :
  good_responses items = good_responses (two_xx items).
Proof. apply good_from_two_xx. Qed.

Lemma good_from_integer_keys (items : list (string * Response Schema))
    (good : list (Z * Response Schema)) :
  integer_keys items = true ->
  for_each
    (fun good item =>
       if startswith item.1 "2"
       then let* code := int item.1 in Ok (good ++ [(code, item.2)])
       else Ok good)
    items good
  = Ok (good ++ map (fun item => (key_code item.1, item.2)) (two_xx items)).
Proof.
  revert good. unfold integer_keys, two_xx.
  induction items as [|item items IH]; intros good Hkeys.
  - simpl. by rewrite app_nil_r.
  - cbn [for_each List.filter] in *.
    destruct (startswith item.1 "2") eqn:H2.
    + cbn [forallb] in Hkeys. apply andb_true_iff in Hkeys as [Hk Hrest].
      apply bool_decide_eq_true in Hk as [n Hn].
      unfold int, key_code. cbn [map]. rewrite Hn. cbn [bind].
      rewrite IH by done. by rewrite <- app_assoc.
    + cbn [bind]. by apply IH.
Qed.

Lemma two_xx_head_starts (items rest : list (string * Response Schema))
    (key : string) (resp : Response Schema) :
  two_xx items = (key, resp) :: rest -> startswith key "2" = true.
Proof.
  intros H.
  assert (Hin : In (key, resp) (two_xx items)) by (rewrite H; by left).
  unfold two_xx in Hin. by apply filter_In in Hin as [_ Hin].
Qed.

(** The resolver once the candidates are known. *)
Lemma generate_return_type_unfold (op : Operation Schema)
    (items : list (string * Response Schema)) (good : list (Z * Response Schema)) :
  responses op = Some items ->
  good_responses items = Ok good ->
  generate_return_type op =
  match good with
  | [] => Ok no_type_200
  | (code, response) :: _ =>
      match response_content response with
      | None => Ok (mkOpReturnType None (StatusInt code) false None)
      | Some media_types =>
          match media_types !! "application/json" with
          | Some media =>
              match media_type_schema media with
              | Some (IsReference r) =>
                  Ok (mkOpReturnType
                        (Some (mkTypeConversion (ref r) (short_name (ref r))
                                 (Some [short_name (ref r)])))
                        (StatusInt code) true None)
              | Some (IsSchema s) =>
                  let converted_result := type_converter s true in
                  let* list_type :=
                    if contains "array" (original_type converted_result)
                    then match import_types converted_result with
                         | Some names => let* first := first_item names in Ok (Some first)
                         | None => Ok None
                         end
                    else Ok None in
                  Ok (mkOpReturnType (Some converted_result) (StatusInt code)
                        (has_import converted_result) list_type)
              | None => Raise (Exception "Unknown media type schema type")
              end
          | None => Raise (Exception "Unknown media type schema type")
          end
      end
  end.
Proof.
  intros Hr Hg. open_generate_return_type. rewrite Hr, Hg. cbn [bind].
  destruct good as [|[code response] rest]; [done |].
  destruct (response_content response) as [media_types|]; [| done].
  destruct (media_types !! "application/json") as [media|]; [| done].
  destruct (media_type_schema media) as [[r|s]|]; [done | | done].
  cbv zeta. unfold has_import.
  destruct (import_types (type_converter s true)) as [[|first others]|]; done.
Qed.

Lemma good_responses_integer_keys (items : list (string * Response Schema)) :
  integer_keys items = true ->
  good_responses items
  = Ok (map (fun item => (key_code item.1, item.2)) (two_xx items)).
Proof. intros H. unfold good_responses. by rewrite good_from_integer_keys. Qed.

(** The first entry whose key starts with ["2"] is the chosen candidate
    when every such key is an integer literal. *)
Lemma good_responses_first (items rest : list (string * Response Schema))
    (key : string) (resp : Response Schema) :
  integer_keys items = true ->
  two_xx items = (key, resp) :: rest ->
  good_responses items
  = Ok ((key_code key, resp) :: map (fun item => (key_code item.1, item.2)) rest).
Proof. intros Hkeys H2. rewrite good_responses_integer_keys by done. by rewrite H2. Qed.

(** C2, amended. When every key that starts with ["2"] is an integer
    literal and the first 2xx response has a content mapping without an
    [application/json] entry, the resolver raises "Unknown media type
    schema type"; it returns no type, the chosen status code and
    [complex_type] false when that response has no content mapping. *)
Theorem response_without_json (op : Operation Schema)
    (items : list (string * Response Schema)) (key : string) (resp : Response Schema)
    (rest : list (string * Response Schema)) :
  responses op = Some items ->
  integer_keys items = true ->
  two_xx items = (key, resp) :: rest ->
  (forall media_types,
      response_content resp = Some media_types ->
      media_types !! "application/json" = None ->
      generate_return_type op = Raise (Exception "Unknown media type schema type")) /\
  (response_content resp = None ->
   generate_return_type op
   = Ok (mkOpReturnType None (StatusInt (key_code key)) false None)).
Proof.
  intros Hr Hkeys H2.
  rewrite (generate_return_type_unfold op Hr (good_responses_first items Hkeys H2)). split.
  - intros media_types -> Hjson. by rewrite Hjson.
  - by intros ->.
Qed.

(** C3, amended. When every key that starts with ["2"] is an integer
    literal, for an inline JSON schema on the first 2xx response: when the
    original type contains ["array"] and the import list starts with a
    name, the result has that name as [list_type]; a result marked complex
    is returned if and only if the collaborator reported at least one
    import name; and a result is returned in every case but that of an
    array with an empty import list. *)
Theorem inline_schema_return_type (op : Operation Schema)
    (items : list (string * Response Schema)) (key : string) (resp : Response Schema)
    (rest : list (string * Response Schema)) (media_types : gmap string (MediaType Schema))
    (media : MediaType Schema) (s : Schema) :
  responses op = Some items ->
  integer_keys items = true ->
  two_xx items = (key, resp) :: rest ->
  response_content resp = Some media_types ->
  media_types !! "application/json" = Some media ->
  media_type_schema media = Some (IsSchema s) ->
  let conv := type_converter s true in
  (forall first others,
      contains "array" (original_type conv) = true ->
      import_types conv = Some (first :: others) ->
      generate_return_type op
      = Ok (mkOpReturnType (Some conv) (StatusInt (key_code key)) true (Some first))) /\
  ((exists r, generate_return_type op = Ok r /\ complex_type r = true)
   <-> has_import conv = true) /\
  (forall r, generate_return_type op = Ok r ->
             complex_type r = has_import conv /\ type r = Some conv) /\
  (~ (contains "array" (original_type conv) = true /\ import_types conv = Some []) ->
   exists r, generate_return_type op = Ok r).
Proof.
  intros Hr Hkeys H2 Hc Hj Hs conv.
  rewrite (generate_return_type_unfold op Hr (good_responses_first items Hkeys H2)),
    Hc, Hj, Hs. cbv zeta.
  fold conv. unfold has_import.
  destruct (contains "array" (original_type conv)),
    (import_types conv) as [[|first others]|]; cbn [bind first_item];
    (split; [intros ? ? ? [=]; by subst |]);
    (split; [split; [by intros (r & [= <-] & ?) | try done; intros _; by eexists] |]);
    (split; [by intros r [= <-] |]);
    try (intros _; by eexists).
  intros Hn. exfalso. by apply Hn.
Qed.

(** C10. For an inline JSON schema on the first 2xx response whose original
    type contains ["array"] and whose import list is the empty list, the
    resolver raises [IndexError]: it indexes the list behind a check that
    it is a list, not that it has an element. *)
Theorem empty_import_list_index_error (op : Operation Schema)
    (items : list (string * Response Schema)) (code : Z) (resp : Response Schema)
    (rest : list (Z * Response Schema)) (media_types : gmap string (MediaType Schema))
    (media : MediaType Schema) (s : Schema) :
  responses op = Some items ->
  good_responses items = Ok ((code, resp) :: rest) ->
  response_content resp = Some media_types ->
  media_types !! "application/json" = Some media ->
  media_type_schema media = Some (IsSchema s) ->
  contains "array" (original_type (type_converter s true)) = true ->
  import_types (type_converter s true) = Some [] ->
  generate_return_type op = Raise (IndexError "list index out of range").
Proof.
  intros Hr Hg Hc Hj Hs Ha Hi.
  rewrite (generate_return_type_unfold op Hr Hg), Hc, Hj, Hs. cbv zeta.
  by rewrite Ha, Hi.
Qed.

(** C4, amended. Entries whose key does not start with ["2"] play no part;
    without responses, or without such an entry, the result is no type,
    status ["200"], not complex; and when every key that starts with ["2"]
    is an integer literal, the first such entry alone decides the result,
    whose status code is the integer of its key. *)
Theorem first_2xx_response_decides (op : Operation Schema) :
  (responses op = None -> generate_return_type op = Ok no_type_200) /\
  (forall items,
      responses op = Some items -> two_xx items = [] ->
      generate_return_type op = Ok no_type_200) /\
  (forall items,
      responses op = Some items ->
      generate_return_type op
      = generate_return_type (with_responses op (Some (two_xx items)))) /\
  (forall items key resp rest,
      responses op = Some items ->
      integer_keys items = true ->
      two_xx items = (key, resp) :: rest ->
      generate_return_type op
      = generate_return_type (with_responses op (Some [(key, resp)])) /\
      (forall r, generate_return_type op = Ok r ->
                 status_code r = StatusInt (key_code key))).
Proof.
  split; [| split; [| split]].
  - intros Hr. open_generate_return_type. by rewrite Hr.
  - intros items Hr Hnone.
    apply (generate_return_type_unfold op (items := items) (good := [])); [done |].
    by rewrite good_responses_two_xx, Hnone.
  - intros items Hr. open_generate_return_type.
    rewrite Hr. cbn [with_responses responses].
    by rewrite (good_responses_two_xx items).
  - intros items key resp rest Hr Hkeys H2.
    assert (Hgood : good_responses items
                    = Ok ((key_code key, resp)
                            :: map (fun item => (key_code item.1, item.2)) rest)).
    { rewrite good_responses_integer_keys by done. by rewrite H2. }
    assert (Hone : good_responses [(key, resp)] = Ok [(key_code key, resp)]).
    { assert (H1 : two_xx [(key, resp)] = [(key, resp)]).
      { unfold two_xx. cbn [List.filter fst].
        by rewrite (two_xx_head_starts items H2). }
      rewrite good_responses_integer_keys.
      - by rewrite H1.
      - unfold integer_keys in *. rewrite H1. rewrite H2 in Hkeys.
        cbn [forallb] in *. apply andb_true_iff in Hkeys as [-> _]. done. }
    rewrite (generate_return_type_unfold op Hr Hgood).
    rewrite (generate_return_type_unfold (with_responses op (Some [(key, resp)]))
               (items := [(key, resp)]) eq_refl Hone).
    split; [done |].
    intros r.
    destruct (response_content resp) as [media_types|]; [| by intros [= <-]].
    destruct (media_types !! "application/json") as [media|]; [| done].
    destruct (media_type_schema media) as [[ref|s]|]; [by intros [= <-] | | done].
    cbv zeta.
    destruct (contains "array" (original_type (type_converter s true))),
      (import_types (type_converter s true)) as [[|first others]|];
      cbn [bind first_item]; try done; by intros [= <-].
Qed.

(** ** Service grouper *)

Lemma group_services_eq (cfg : LibraryConfig) (service_ops : list (ServiceOperation Schema)) :
  group_services cfg service_ops
  = map (sync_service cfg service_ops) (elements (observed_tags service_ops))
    ++ map (async_service cfg service_ops) (elements (observed_tags service_ops)).
Proof. unfold group_services. cbv zeta. by rewrite !fold_left_snoc_map. Qed.

(** C1, amended. Whenever the descriptors are built, [generate_services]
    returns the synchronous services of the observed tags followed by their
    asynchronous services: twice as many services as there are distinct
    tags, whichever of the two variants are enabled. *)
Theorem generate_services_count (paths : list (string * PathItem Schema))
    (cfg : LibraryConfig) (service_ops : list (ServiceOperation Schema)) :
  collect_service_ops paths cfg = Ok service_ops ->
  exists services,
    generate_services paths cfg = Ok services /\
    services
    = map (sync_service cfg service_ops) (elements (observed_tags service_ops))
      ++ map (async_service cfg service_ops) (elements (observed_tags service_ops)) /\
    List.length services = (2 * size (observed_tags service_ops))%nat.
Proof.
  intros Hops. exists (group_services cfg service_ops).
  open_generate_services. rewrite Hops. cbn [bind].
  split; [done |]. split; [apply group_services_eq |].
  rewrite group_services_eq, length_app, !length_map.
  unfold size, set_size. simpl. lia.
Qed.

End Properties.

(** * The properties on the sample inputs *)

Lemma generate_services_count_witness :
  exists services,
    sample_services [("/pets", pets_path)] sync_and_async = Ok services /\
    List.length services = 2%nat.
Proof.
  edestruct (generate_services_count sample_converter sample_converter_none sample_render
               [("/pets", pets_path)] sync_and_async) as (services & Hs & _ & Hlen).
  - vm_compute. reflexivity.
  - exists services. split; [exact Hs |]. rewrite Hlen. vm_compute. reflexivity.
Defined.

(** With only the synchronous variant enabled, one observed tag still gives
    two services, not one. *)
Lemma one_variant_still_two_per_tag :
  exists service_ops services,
    collect_service_ops sample_converter sample_converter_none sample_render
      [("/pets", pets_path)] sync_only = Ok service_ops /\
    sample_services [("/pets", pets_path)] sync_only = Ok services /\
    include_async sync_only = false /\
    size (observed_tags service_ops) = 1%nat /\
    List.length services = 2%nat.
Proof.
  eexists. eexists. split; [vm_compute; reflexivity |].
  split; [vm_compute; reflexivity |]. repeat split; vm_compute; reflexivity.
Qed.

Lemma response_without_json_witness :
  generate_return_type sample_converter download_text
  = Raise (Exception "Unknown media type schema type").
Proof.
  destruct (response_without_json sample_converter download_text
              (items := [("200", mkResponse (Some plain_text_only))])
              (key := "200") (resp := mkResponse (Some plain_text_only)) (rest := []))
    as [H _]; [reflexivity | vm_compute; reflexivity | vm_compute; reflexivity |].
  apply (H plain_text_only); [reflexivity | vm_compute; reflexivity].
Defined.

(** The first 2xx response has a content mapping with [text/plain] only,
    and the resolver raises instead of returning no type. *)
Lemma text_only_response_raises :
  responses download_text = Some [("200", mkResponse (Some plain_text_only))] /\
  plain_text_only !! "application/json" = None /\
  generate_return_type sample_converter download_text
  = Raise (Exception "Unknown media type schema type") /\
  generate_return_type sample_converter download_text
  <> Ok (mkOpReturnType None (StatusInt 200) false None).
Proof. repeat split; try (vm_compute; reflexivity). vm_compute. discriminate. Qed.

Lemma inline_schema_return_type_witness :
  generate_return_type sample_converter list_pets
  = Ok (mkOpReturnType (Some pet_list) (StatusInt 200) true (Some "Pet")).
Proof.
  destruct (inline_schema_return_type sample_converter list_pets
              (items := [("200", mkResponse (Some (json_only (IsSchema pet_list))));
                         ("404", no_content)])
              (key := "200") (resp := mkResponse (Some (json_only (IsSchema pet_list))))
              (rest := []) (media_types := json_only (IsSchema pet_list))
              (media := mkMediaType (Some (IsSchema pet_list))) (s := pet_list))
    as [H _]; [reflexivity | vm_compute; reflexivity | vm_compute; reflexivity
              | reflexivity | vm_compute; reflexivity | reflexivity |].
  apply (H "Pet" []); [vm_compute; reflexivity | reflexivity].
Defined.

(** The first 2xx response carries an inline array schema with an import
    name, and a wildcard key behind it makes the resolver raise instead of
    returning a result with a list type. *)
Lemma inline_schema_behind_wildcard_raises :
  two_xx [("200", mkResponse (Some (json_only (IsSchema pet_list)))); ("2XX", no_content)]
  = [("200", mkResponse (Some (json_only (IsSchema pet_list)))); ("2XX", no_content)] /\
  json_only (IsSchema pet_list) !! "application/json"
  = Some (mkMediaType (Some (IsSchema pet_list))) /\
  contains "array" (original_type (sample_converter pet_list true)) = true /\
  import_types (sample_converter pet_list true) = Some ["Pet"] /\
  generate_return_type sample_converter
    (mkOperation (Some "list-pets") None None
       (Some [("200", mkResponse (Some (json_only (IsSchema pet_list))));
              ("2XX", no_content)])
       None)
  = Raise (ValueError "invalid literal for int() with base 10: '2XX'").
Proof. repeat split; vm_compute; reflexivity. Qed.

Lemma first_2xx_response_decides_witness :
  generate_return_type sample_converter list_pets
  = generate_return_type sample_converter
      (with_responses list_pets
         (Some [("200", mkResponse (Some (json_only (IsSchema pet_list))))])).
Proof.
  destruct (first_2xx_response_decides sample_converter list_pets) as (_ & _ & _ & H).
  refine (proj1 (H [("200", mkResponse (Some (json_only (IsSchema pet_list))));
                    ("404", no_content)]
                   "200" (mkResponse (Some (json_only (IsSchema pet_list)))) [] _ _ _));
    vm_compute; reflexivity.
Defined.

(** A wildcard key after the first 2xx entry makes the resolver raise,
    while the first entry alone gives a result. *)
Lemma wildcard_key_after_first_raises :
  two_xx [("200", no_content); ("2XX", no_content)]
  = [("200", no_content); ("2XX", no_content)] /\
  generate_return_type sample_converter wildcard_after
  = Raise (ValueError "invalid literal for int() with base 10: '2XX'") /\
  generate_return_type sample_converter
    (with_responses wildcard_after (Some [("200", no_content)]))
  = Ok (mkOpReturnType None (StatusInt 200) false None).
Proof. repeat split; vm_compute; reflexivity. Qed.

Lemma generate_params_order_witness :
  generate_params sample_converter sample_converter_none list_pets
  = Ok ["limit : int = None"; "pet-id : int"] /\
  (exists T, generate_params sample_converter sample_converter_none create_pet
             = Ok (["pet-id : int"] ++ ["data : " +:+ T])) /\
  generate_params sample_converter sample_converter_none anonymous = Ok [].
Proof.
  split; [| split].
  - apply (generate_params_order sample_converter sample_converter_none list_pets).
    reflexivity.
  - destruct (generate_params_order sample_converter sample_converter_none create_pet)
      as (_ & H & _).
    apply (H (mkRequestBody (json_only (IsReference (mkReference "#/components/schemas/Pet"))))
             (mkMediaType (Some (IsReference (mkReference "#/components/schemas/Pet"))))
             (IsReference (mkReference "#/components/schemas/Pet")));
      [reflexivity | vm_compute; reflexivity | reflexivity].
  - apply (generate_params_order sample_converter sample_converter_none anonymous);
      reflexivity.
Defined.

Lemma declared_parameter_default_witness :
  exists d,
    ["limit : int = None"; "pet-id : int"] !! 0%nat = Some d /\
    (d = "limit : int = None" /\ endswith d " = None" = true) /\
    (endswith d " = None" = true <-> required limit_param = false).
Proof.
  destruct (declared_parameter_default sample_converter sample_converter_none list_pets
              (l := ["limit : int = None"; "pet-id : int"]) 0 (p := limit_param))
    as (d & Hd & Hopt & _ & Hiff); [vm_compute; reflexivity | reflexivity |].
  exists d. split; [exact Hd |]. split.
  - apply Hopt. reflexivity.
  - apply Hiff. vm_compute. reflexivity.
Defined.

(** A required parameter whose reference ends in [ = None] is declared by
    text that ends in [ = None]. *)
Lemma required_declaration_ending_in_default :
  required odd_ref_param = true /\
  generate_params sample_converter sample_converter_none
    (mkOperation (Some "odd") (Some [odd_ref_param]) None None None)
  = Ok ["p : X = None"] /\
  endswith "p : X = None" " = None" = true.
Proof. repeat split; vm_compute; reflexivity. Qed.

Lemma non_json_body_is_fatal_witness :
  generate_params sample_converter sample_converter_none upload_text
  = Raise (Exception "Unknown media type schema type: <class 'dict'>") /\
  exists e, sample_services [("/pets", pets_path); ("/upload", upload_path)] sync_only
            = Raise e.
Proof.
  destruct (non_json_body_is_fatal sample_converter sample_converter_none sample_render
              upload_text (body := mkRequestBody plain_text_only))
    as (Hp & _ & Hrun); [reflexivity | vm_compute; reflexivity |].
  split; [exact Hp |].
  apply Hrun; [| reflexivity].
  exists "/upload", upload_path, "put".
  split; [right; left; reflexivity |].
  split; [do 2 right; left; reflexivity | reflexivity].
Defined.

Lemma operation_id_requires_operationId_witness :
  exists e,
    generate_service_operation sample_converter sample_converter_none sample_render
      sync_only empty_path "get" anonymous "/" false = Raise e.
Proof.
  destruct (operation_id_requires_operationId sample_converter sample_converter_none
              sample_render anonymous) as (_ & H).
  destruct (H eq_refl) as (_ & Hso). apply Hso.
Defined.

Lemma empty_import_list_index_error_witness :
  generate_return_type sample_converter bare_array_op
  = Raise (IndexError "list index out of range").
Proof.
  apply (empty_import_list_index_error sample_converter bare_array_op
           (items := [("200", mkResponse (Some (json_only (IsSchema bare_array))))])
           (code := 200) (resp := mkResponse (Some (json_only (IsSchema bare_array))))
           (rest := []) (media_types := json_only (IsSchema bare_array))
           (media := mkMediaType (Some (IsSchema bare_array))) (s := bare_array));
    try reflexivity; vm_compute; reflexivity.
Defined.

(** * Further properties of the generator *)

(** ** Reference short names *)

Lemma append_cons (c : ascii) (a b : string) : String c a +:+ b = String c (a +:+ b).
Proof. reflexivity. Qed.

Lemma split_without_separator (sep : ascii) (s : string) :
  lacks_char sep s = true -> split sep s = [s].
Proof.
  induction s as [|c s IH]; [done |].
  cbn [lacks_char split]. intros [Hc Hs]%andb_true_iff.
  apply negb_true_iff in Hc. rewrite Hc, (IH Hs). done.
Qed.

Lemma split_segments_lack_separator (sep : ascii) (s : string) :
  Forall (fun seg => lacks_char sep seg = true) (split sep s).
Proof.
  induction s as [|c s IH]; cbn [split].
  - by repeat constructor.
  - destruct (Ascii.eqb c sep) eqn:Hc; [by constructor |].
    destruct (split sep s) as [|seg segs].
    + repeat constructor. cbn [lacks_char]. by rewrite Hc.
    + apply Forall_cons_iff in IH as [Hseg Hsegs].
      constructor; [| done]. cbn [lacks_char]. by rewrite Hc.
Qed.

Lemma split_at_separator (sep : ascii) (p s : string) :
  split sep (p +:+ String sep s) = split sep p ++ split sep s.
Proof.
  induction p as [|c p IH].
  - change ("" +:+ String sep s) with (String sep s).
    cbn [split]. by rewrite Ascii.eqb_refl.
  - rewrite append_cons. cbn [split]. rewrite IH.
    destruct (Ascii.eqb c sep); [done |].
    pose proof (split_nonempty sep p) as Hne.
    by destruct (split sep p).
Qed.

Lemma last_app_nonempty {A : Type} (l1 l2 : list A) (d : A) :
  l2 <> [] -> List.last (l1 ++ l2) d = List.last l2 d.
Proof.
  intros Hne. induction l1 as [|x l1 IH]; [done |].
  cbn [app]. destruct (l1 ++ l2) eqn:Happ.
  - by destruct l1, l2.
  - cbn [List.last]. by rewrite <- IH.
Qed.

Lemma short_name_slash_free (name : string) :
  lacks_char "/" name = true -> short_name name = name.
Proof. intros H. unfold short_name. by rewrite split_without_separator. Qed.

Lemma short_name_behind_slash (prefix name : string) :
  short_name (prefix +:+ String "/" name) = short_name name.
Proof.
  unfold short_name. rewrite split_at_separator.
  apply last_app_nonempty, split_nonempty.
Qed.

(** X1. The short name of a reference has no slash in it; it is what
    follows the last slash, so a slash-free name behind any prefix is
    recovered, and a reference without slash is its own short name. *)
Theorem short_name_last_segment (prefix name : string) :
  lacks_char "/" (short_name prefix) = true /\
  short_name (prefix +:+ String "/" name) = short_name name /\
  (lacks_char "/" name = true ->
   short_name (prefix +:+ String "/" name) = name /\ short_name name = name).
Proof.
  assert (Hself : lacks_char "/" name = true -> short_name name = name).
  { intros H. unfold short_name. by rewrite split_without_separator. }
  assert (Hlast : short_name (prefix +:+ String "/" name) = short_name name).
  { unfold short_name. rewrite split_at_separator.
    apply last_app_nonempty, split_nonempty. }
  split; [| split; [done |]].
  - unfold short_name.
    pose proof (split_segments_lack_separator "/" prefix) as Hall.
    pose proof (split_nonempty "/" prefix) as Hne.
    induction (split "/" prefix) as [|seg segs IH]; [done |].
    apply Forall_cons_iff in Hall as [Hseg Hsegs].
    destruct segs as [|seg' segs']; [done |].
    apply IH; done.
  - intros H. rewrite Hlast. split; by apply Hself.
Qed.

Lemma short_name_last_segment_witness :
  short_name ("#/components/schemas" +:+ String "/" "Pet") = "Pet" /\
  short_name "Pet" = "Pet".
Proof.
  apply (short_name_last_segment "#/components/schemas" "Pet"). reflexivity.
Defined.

(** ** Hyphens in identifiers *)

Lemma replace_removes (a b : ascii) (s : string) :
  Ascii.eqb b a = false -> lacks_char a (replace a b s) = true.
Proof.
  intros Hba. induction s as [|c s IH]; [done |].
  cbn [replace lacks_char]. rewrite IH, andb_true_r.
  destruct (Ascii.eqb c a) eqn:Hc; by rewrite ?Hba, ?Hc.
Qed.

Lemma replace_length (a b : ascii) (s : string) :
  String.length (replace a b s) = String.length s.
Proof. induction s as [|c s IH]; [done |]. cbn [replace String.length]. by rewrite IH. Qed.

Lemma replace_without (a b : ascii) (s : string) :
  lacks_char a s = true -> replace a b s = s.
Proof.
  induction s as [|c s IH]; [done |].
  cbn [replace lacks_char]. intros [Hc Hs]%andb_true_iff.
  apply negb_true_iff in Hc. by rewrite Hc, IH.
Qed.

Section FurtherProperties.

Context {Schema : Type}.
Variable type_converter : Schema -> bool -> TypeConversion.
Variable type_converter_none : bool -> result TypeConversion.
Variable render : string -> ServiceOperation Schema -> string.

Local Abbreviation generate_params := (generate_params type_converter type_converter_none).
Local Abbreviation body_declaration :=
  (_generate_params_from_content type_converter type_converter_none).
Local Abbreviation param_declaration := (param_declaration type_converter).
Local Abbreviation declared_type := (declared_type type_converter).
Local Abbreviation generate_return_type := (generate_return_type type_converter).
Local Abbreviation generate_service_operation :=
  (generate_service_operation type_converter type_converter_none render).
Local Abbreviation visit_operation :=
  (visit_operation type_converter type_converter_none render).
Local Abbreviation collect_service_ops :=
  (collect_service_ops type_converter type_converter_none render).
Local Abbreviation generate_services :=
  (generate_services type_converter type_converter_none render).

(** X2. An operation identifier that is produced has no hyphen, has the
    length of [operationId], is [operationId] itself when that has no
    hyphen, and does not depend on the HTTP method passed along. *)
Theorem generate_operation_id_sanitised (op : Operation Schema) (http_op v : string) :
  generate_operation_id op http_op = Ok v ->
  exists id,
    operationId op = Some id /\
    lacks_char "-" v = true /\
    String.length v = String.length id /\
    (lacks_char "-" id = true -> v = id) /\
    (forall other, generate_operation_id op other = Ok v).
Proof.
  unfold generate_operation_id. destruct (operationId op) as [id|]; [| done].
  intros [= <-]. exists id. split; [done |].
  split; [by apply replace_removes |].
  split; [apply replace_length |].
  split; [apply replace_without | done].
Qed.

(** ** Parameters, body parameter and query parameters together *)

(** X3. When the parameter list is resolved, the body parameter name is
    ["data"] exactly when the last entry of the list declares [data], and
    without a body parameter name the list is the declared parameters
    alone. *)
Theorem body_param_names_last_parameter (op : Operation Schema) (l : list string) :
  generate_params op = Ok l ->
  match generate_body_param op with
  | Some b => b = "data" /\ exists T, last l = Some (b +:+ " : " +:+ T)
  | None => l = map param_declaration (declared_parameters op)
  end.
Proof.
  rewrite generate_params_unfold. cbv zeta. unfold generate_body_param.
  destruct (requestBody op) as [body|]; [| by intros [= <-]].
  destruct (request_content body !! "application/json") as [media|]; [| done].
  destruct (body_declaration (media_type_schema media)) as [d|e] eqn:Hd; [| done].
  cbn [bind]. intros [= <-]. split; [done |].
  apply body_declaration_named_data in Hd as [T ->].
  exists T. apply last_snoc.
Qed.

Lemma generate_query_params_filter (op : Operation Schema) :
  generate_query_params op
  = map query_entry
      (List.filter (fun p => String.eqb (param_in p) "query") (declared_parameters op)).
Proof.
  unfold generate_query_params, declared_parameters.
  destruct (parameters op) as [ps|]; [| done].
  exact (fold_left_snoc_filter (fun p => String.eqb (param_in p) "query") query_entry ps []).
Qed.

(** X4. When the parameter list is resolved, every query-parameter entry
    ['name' : name] comes from a declared parameter located in the query
    whose declaration [name : type], with its default if any, is in the
    parameter list; and there are at most as many entries as declarations. *)
Theorem query_entries_are_declared (op : Operation Schema) (l : list string) :
  generate_params op = Ok l ->
  (forall q, In q (generate_query_params op) ->
     exists p,
       In p (declared_parameters op) /\ param_in p = "query" /\
       q = "'" +:+ name p +:+ "' : " +:+ name p /\
       In ((name p +:+ " : " +:+ declared_type p)
           +:+ (if required p then "" else " = None")) l) /\
  (List.length (generate_query_params op) <= List.length l)%nat.
Proof.
  intros Hl.
  assert (Hpre : exists tl, l = map param_declaration (declared_parameters op) ++ tl).
  { rewrite generate_params_unfold in Hl. cbv zeta in Hl.
    destruct (requestBody op) as [body|].
    - destruct (request_content body !! "application/json") as [media|]; [| done].
      destruct (body_declaration (media_type_schema media)) as [d|e]; simpl in Hl; [| done].
      injection Hl as <-. by eexists.
    - injection Hl as <-. exists []. by rewrite app_nil_r. }
  destruct Hpre as [tl ->]. rewrite generate_query_params_filter. split.
  - intros q Hq. apply in_map_iff in Hq as (p & <- & Hp).
    apply filter_In in Hp as [Hp Hquery]. apply String.eqb_eq in Hquery.
    exists p. repeat split; try done.
    apply in_or_app. left. rewrite <- param_declaration_eq. by apply in_map.
  - rewrite length_map, length_app, length_map.
    pose proof (filter_length_le (fun p => String.eqb (param_in p) "query")
                  (declared_parameters op)). lia.
Qed.

(** ** Outcomes of the return-type resolver *)

Lemma int_raises (key : string) (e : PyError) :
  int key = Raise e -> e = ValueError (int_error key) /\ int_literal key = None.
Proof. unfold int. destruct (int_literal key); [done |]. by intros [= <-]. Qed.

(** The comprehension raises what [int] raises on one of the keys that
    start with ["2"], and returns only when [int] accepts them all. *)
Lemma comprehension_raises {R : Type} (items : list (string * R)) (good : list (Z * R))
    (e : PyError) :
  for_each
    (fun good item =>
       if startswith item.1 "2"
       then let* code := int item.1 in Ok (good ++ [(code, item.2)])
       else Ok good)
    items good
  = Raise e ->
  exists key value,
    In (key, value) items /\ startswith key "2" = true /\ int key = Raise e.
Proof.
  revert good. induction items as [|[key value] items IH]; intros good; [done |].
  cbn [for_each fst snd]. destruct (startswith key "2") eqn:H2; cbn [bind].
  - destruct (int key) as [code|e'] eqn:Hint; cbn [bind].
    + intros (key' & value' & Hin & Hs & He)%IH.
      exists key', value'. repeat split; try done. by right.
    + intros [= <-]. exists key, value. repeat split; try done. by left.
  - intros (key' & value' & Hin & Hs & He)%IH.
    exists key', value'. repeat split; try done. by right.
Qed.

Lemma comprehension_returns {R : Type} (items : list (string * R)) (good l : list (Z * R)) :
  for_each
    (fun good item =>
       if startswith item.1 "2"
       then let* code := int item.1 in Ok (good ++ [(code, item.2)])
       else Ok good)
    items good
  = Ok l ->
  forall key value,
    In (key, value) items -> startswith key "2" = true -> int_literal key <> None.
Proof.
  revert good. induction items as [|[key value] items IH]; intros good; [done |].
  cbn [for_each fst snd]. destruct (startswith key "2") eqn:H2; cbn [bind].
  - unfold int at 1. destruct (int_literal key) as [n|] eqn:Hn; cbn [bind]; [| done].
    intros Hrest key' value' [[= <- <-] | Hin] Hs; [congruence |].
    by apply (IH _ Hrest key' value').
  - intros Hrest key' value' [[= <- <-] | Hin] Hs; [congruence |].
    by apply (IH _ Hrest key' value').
Qed.

(** On responses that are all inline, the resolver over values is
    [generate_return_type]. *)
Lemma good_response_values_inline (items : list (string * Response Schema))
    (good : list (Z * Response Schema)) :
  for_each
    (fun good item =>
       if startswith item.1 "2"
       then let* code := int item.1 in Ok (good ++ [(code, item.2)])
       else Ok good)
    (inline_responses items) (map (fun c => (c.1, InlineResponse c.2)) good)
  = match for_each
            (fun good item =>
               if startswith item.1 "2"
               then let* code := int item.1 in Ok (good ++ [(code, item.2)])
               else Ok good)
            items good with
    | Ok l => Ok (map (fun c => (c.1, InlineResponse c.2)) l)
    | Raise e => Raise e
    end.
Proof.
  revert good. induction items as [|[key resp] items IH]; intros good; [done |].
  cbn [inline_responses map for_each fst snd].
  destruct (startswith key "2"); cbn [bind]; [| apply IH].
  destruct (int key) as [code|e]; cbn [bind]; [| done].
  rewrite <- (IH (good ++ [(code, resp)])). by rewrite map_app.
Qed.

Lemma generate_return_type_resolves (op : Operation Schema) :
  generate_return_type op
  = resolve_responses type_converter (inline_responses <$> responses op).
Proof.
  open_generate_return_type. unfold resolve_responses.
  destruct (responses op) as [items|]; [| done]. cbn [fmap option_fmap option_map].
  unfold good_response_values, good_responses.
  pose proof (good_response_values_inline items []) as Hinline.
  cbn [map] in Hinline. rewrite Hinline.
  destruct (for_each _ items []) as [[|[code resp] rest]|e]; done.
Qed.

(** X5. With responses whose keys are ASCII text, be their values
    responses or references, the resolver raises [ValueError] exactly when
    [int] refuses some key that starts with ["2"], whichever position that
    key has. *)
Theorem value_error_iff_bad_key (items : list (string * ResponseValue Schema)) :
  (forall key value, In (key, value) items -> is_ascii key = true) ->
  ((exists msg, resolve_responses type_converter (Some items) = Raise (ValueError msg))
   <-> (exists key value,
          In (key, value) items /\ startswith key "2" = true /\ int_literal key = None)).
Proof.
  intros _. unfold resolve_responses, good_response_values. split.
  - intros [msg Hraise].
    destruct (for_each _ items []) as [good|e] eqn:Hgood; cbn [bind] in Hraise.
    + exfalso. destruct good as [|[code value] rest]; [done |].
      destruct value as [response|r]; cbn [content_of bind] in Hraise; [| done].
      destruct (response_content response) as [media_types|]; [| done].
      destruct (media_types !! "application/json") as [media|]; [| done].
      destruct (media_type_schema media) as [[r|s]|]; [done | | done].
      cbv zeta in Hraise.
      destruct (contains "array" (original_type (type_converter s true))),
        (import_types (type_converter s true)) as [[|first others]|]; done.
    + apply comprehension_raises in Hgood as (key & value & Hin & Hs & Hint).
      apply int_raises in Hint as [_ Hnone]. by exists key, value.
  - intros (key & value & Hin & Hs & Hnone).
    destruct (for_each _ items []) as [good|e] eqn:Hgood; cbn [bind].
    + exfalso. by apply (comprehension_returns items [] Hgood key value).
    + apply comprehension_raises in Hgood as (key' & value' & _ & _ & Hint).
      apply int_raises in Hint as [-> _]. by eexists.
Qed.

(** X6. Be the values of the responses mapping responses or references,
    the resolver raises nothing but what [int] raises on a key that starts
    with ["2"], the [AttributeError] of a reference that has no content,
    the exception "Unknown media type schema type" and the [IndexError] of
    an empty import list. *)
Theorem generate_return_type_errors
    (responses : option (list (string * ResponseValue Schema))) (e : PyError) :
  resolve_responses type_converter responses = Raise e ->
  (exists key value items,
      responses = Some items /\ In (key, value) items /\
      startswith key "2" = true /\ int key = Raise e /\
      e = ValueError (int_error key)) \/
  e = AttributeError "'Reference' object has no attribute 'content'" \/
  e = Exception "Unknown media type schema type" \/
  e = IndexError "list index out of range".
Proof.
  unfold resolve_responses, good_response_values.
  destruct responses as [items|]; [| done].
  destruct (for_each _ items []) as [good|e'] eqn:Hgood; cbn [bind].
  - intros Hraise. right.
    destruct good as [|[code value] rest]; [done |].
    destruct value as [response|r]; cbn [content_of bind] in Hraise;
      [| left; congruence].
    destruct (response_content response) as [media_types|]; [| done].
    destruct (media_types !! "application/json") as [media|];
      [| right; left; congruence].
    destruct (media_type_schema media) as [[r|s]|]; [done | | right; left; congruence].
    cbv zeta in Hraise.
    destruct (contains "array" (original_type (type_converter s true))),
      (import_types (type_converter s true)) as [[|first others]|]; try done.
    right. right. cbn in Hraise. congruence.
  - intros [= <-]. left.
    apply comprehension_raises in Hgood as (key & value & Hin & Hs & Hint).
    exists key, value, items. repeat split; try done.
    by apply int_raises in Hint as [-> _].
Qed.

(** X7. Once the first candidate is chosen, the resolver raises
    [AttributeError] exactly when it is a reference, raises "Unknown media
    type schema type" exactly when it is a response with content whose
    [application/json] entry is missing or has no schema, raises
    [IndexError] exactly when the schema is inline with an array original
    type and an empty import list, and returns a result with the chosen
    status code in every other case. *)
Theorem chosen_response_outcomes (items : list (string * ResponseValue Schema))
    (code : Z) (value : ResponseValue Schema) (rest : list (Z * ResponseValue Schema)) :
  good_response_values items = Ok ((code, value) :: rest) ->
  let resolved := resolve_responses type_converter (Some items) in
  let referenced := exists r, value = ReferencedResponse r in
  let unknown := exists response media_types,
      value = InlineResponse response /\
      response_content response = Some media_types /\
      (media_types !! "application/json" = None \/
       exists media, media_types !! "application/json" = Some media /\
                     media_type_schema media = None) in
  let out_of_bounds := exists response media_types media s,
      value = InlineResponse response /\
      response_content response = Some media_types /\
      media_types !! "application/json" = Some media /\
      media_type_schema media = Some (IsSchema s) /\
      contains "array" (original_type (type_converter s true)) = true /\
      import_types (type_converter s true) = Some [] in
  (resolved = Raise (AttributeError "'Reference' object has no attribute 'content'")
   <-> referenced) /\
  (resolved = Raise (Exception "Unknown media type schema type") <-> unknown) /\
  (resolved = Raise (IndexError "list index out of range") <-> out_of_bounds) /\
  (~ referenced -> ~ unknown -> ~ out_of_bounds ->
   exists r, resolved = Ok r /\ status_code r = StatusInt code).
Proof.
  intros Hg resolved referenced unknown out_of_bounds.
  subst resolved referenced unknown out_of_bounds.
  unfold resolve_responses. rewrite Hg. cbn [bind].
  destruct value as [response|r0]; cbn [content_of bind].
  2: { split; [| split; [| split]].
       - split; [intros _; by eexists | done].
       - split; [done | intros (? & ? & [=] & _)].
       - split; [done | intros (? & ? & ? & ? & [=] & _)].
       - intros Hn. exfalso. apply Hn. by eexists. }
  destruct (response_content response) as [media_types|] eqn:Hc;
    [destruct (media_types !! "application/json") as [media|] eqn:Hj;
     [destruct (media_type_schema media) as [[r|s]|] eqn:Hs;
      [| cbv zeta;
         destruct (contains "array" (original_type (type_converter s true))) eqn:Ha,
           (import_types (type_converter s true)) as [[|first others]|] eqn:Hi;
         cbn [bind first_item]
       |]
     |]
    |].
  all: split; [split; [done | intros (? & [=])] |].
  all: split;
    [split;
     [first [done
            |intros _; exists response, media_types;
             (split; [done |]); (split; [done |]);
             first [by left | right; by exists media]]
     |first [done
            |intros (rsp & mts & Hv & Hc' & [Hm | (m & Hm & Hsch)]); congruence]]
    |].
  all: split;
    [split;
     [first [done | intros _; by exists response, media_types, media, s]
     |first [done
            |intros (rsp & mts & m & s' & Hv & Hc' & Hm & Hsch & Ha' & Hi'); congruence]]
    |].
  all: first [intros _ _ _; by eexists
             |intros _ Hn _; exfalso; apply Hn; exists response, media_types;
              (split; [done |]); (split; [done |]);
              first [by left | right; by exists media]
             |intros _ _ Hn; exfalso; apply Hn;
              by exists response, media_types, media, s].
Qed.

(** X8. When every key that starts with ["2"] is an integer literal and
    the JSON schema of the first 2xx response is a reference whose text
    ends in a slash followed by a slash-free name, the result is complex,
    has no list type, and its type is converted to that name, with that
    name as the only import, and keeps the reference as original type. *)
Theorem reference_return_type (op : Operation Schema)
    (items : list (string * Response Schema)) (key : string) (resp : Response Schema)
    (rest : list (string * Response Schema)) (media_types : gmap string (MediaType Schema))
    (media : MediaType Schema) (r : Reference) (prefix name : string) :
  responses op = Some items ->
  integer_keys items = true ->
  two_xx items = (key, resp) :: rest ->
  response_content resp = Some media_types ->
  media_types !! "application/json" = Some media ->
  media_type_schema media = Some (IsReference r) ->
  ref r = prefix +:+ String "/" name ->
  lacks_char "/" name = true ->
  generate_return_type op
  = Ok (mkOpReturnType (Some (mkTypeConversion (ref r) name (Some [name])))
          (StatusInt (key_code key)) true None).
Proof.
  intros Hr Hkeys H2 Hc Hj Hs Href Hname.
  rewrite (generate_return_type_unfold type_converter op Hr
             (good_responses_first items Hkeys H2)), Hc, Hj, Hs.
  by rewrite Href, short_name_behind_slash, (short_name_slash_free name Hname), <- Href.
Qed.

(** ** Descriptors *)

(** What a descriptor that is built holds. *)
Lemma descriptor_fields (cfg : LibraryConfig) (path : PathItem Schema)
    (http_operation : string) (op : Operation Schema) (path_name0 : string)
    (async_type : bool) (so : ServiceOperation Schema) :
  generate_service_operation cfg path http_operation op path_name0 async_type = Ok so ->
  exists ps id r,
    generate_params op = Ok ps /\
    generate_operation_id op http_operation = Ok id /\
    generate_return_type op = Ok r /\
    so = mkServiceOperation ps (if async_type then "async_" +:+ id else id)
           (generate_query_params op) r op path
           (render (template_name cfg)
              (mkServiceOperation ps (if async_type then "async_" +:+ id else id)
                 (generate_query_params op) r op path "" async_type
                 (generate_body_param op) path_name0 http_operation None))
           async_type (generate_body_param op) path_name0 http_operation (first_tag op).
Proof.
  open_generate_service_operation.
  destruct (generate_params op) as [ps|e]; [| done].
  destruct (generate_operation_id op http_operation) as [id|e]; [| done].
  destruct (generate_return_type op) as [r|e]; [| done].
  cbn [bind]. intros [= <-]. exists ps, id, r. repeat split.
  unfold first_tag. by destruct (tags op) as [[|t ts]|].
Qed.

Lemma descriptor_built (cfg : LibraryConfig) (path : PathItem Schema)
    (http_operation : string) (op : Operation Schema) (path_name0 : string)
    (async_type : bool) (ps : list string) (id : string) (r : OpReturnType) :
  generate_params op = Ok ps ->
  generate_operation_id op http_operation = Ok id ->
  generate_return_type op = Ok r ->
  exists so, generate_service_operation cfg path http_operation op path_name0 async_type
             = Ok so.
Proof.
  intros Hp Hi Hr. open_generate_service_operation. rewrite Hp, Hi, Hr. by eexists.
Qed.

(** X9. Building a descriptor fails with the error of the parameter list
    if there is one, else with that of the identifier, else with that of
    the return type; it succeeds exactly when all three succeed. *)
Theorem descriptor_error_precedence (cfg : LibraryConfig) (path : PathItem Schema)
    (http_operation : string) (op : Operation Schema) (path_name0 : string)
    (async_type : bool) :
  let built := generate_service_operation cfg path http_operation op path_name0 async_type in
  (forall e, generate_params op = Raise e -> built = Raise e) /\
  (forall ps e,
      generate_params op = Ok ps ->
      generate_operation_id op http_operation = Raise e -> built = Raise e) /\
  (forall ps id e,
      generate_params op = Ok ps ->
      generate_operation_id op http_operation = Ok id ->
      generate_return_type op = Raise e -> built = Raise e) /\
  ((exists so, built = Ok so) <->
   (exists ps id r,
       generate_params op = Ok ps /\
       generate_operation_id op http_operation = Ok id /\
       generate_return_type op = Ok r)).
Proof.
  cbv zeta. repeat split.
  - intros e H. open_generate_service_operation. by rewrite H.
  - intros ps e Hp Hi. open_generate_service_operation. by rewrite Hp, Hi.
  - intros ps id e Hp Hi Hr. open_generate_service_operation. by rewrite Hp, Hi, Hr.
  - intros [so Hso]. apply descriptor_fields in Hso as (ps & id & r & Hp & Hi & Hr & _).
    by exists ps, id, r.
  - intros (ps & id & r & Hp & Hi & Hr). by eapply descriptor_built.
Qed.

(** X10. A descriptor carries the first tag of its operation, none when the
    tag list is absent or empty, and its content is the template rendered
    on the descriptor as it was before content and tag were attached: the
    template never sees the tag. *)
Theorem descriptor_rendered_before_tagged (cfg : LibraryConfig) (path : PathItem Schema)
    (http_operation : string) (op : Operation Schema) (path_name0 : string)
    (async_type : bool) (so : ServiceOperation Schema) :
  generate_service_operation cfg path http_operation op path_name0 async_type = Ok so ->
  tag so = first_tag op /\
  (forall t more, tags op = Some (t :: more) -> tag so = Some t) /\
  (tags op = None \/ tags op = Some [] -> tag so = None) /\
  content so = render (template_name cfg) (unrendered so) /\
  tag (unrendered so) = None /\ content (unrendered so) = "".
Proof.
  intros Hso. apply descriptor_fields in Hso as (ps & id & r & _ & _ & _ & ->).
  cbn. unfold first_tag. repeat split.
  - by intros t more ->.
  - by intros [-> | ->].
Qed.

(** X11. The synchronous descriptor of an operation is built exactly when
    the asynchronous one is, and the two differ only in the [async_]
    prefix of the identifier, the flag, and the rendered content. *)
Theorem sync_and_async_descriptors (cfg : LibraryConfig) (path : PathItem Schema)
    (http_operation : string) (op : Operation Schema) (path_name0 : string) :
  ((exists s, generate_service_operation cfg path http_operation op path_name0 false = Ok s)
   <-> (exists a, generate_service_operation cfg path http_operation op path_name0 true
                  = Ok a)) /\
  (forall s a,
      generate_service_operation cfg path http_operation op path_name0 false = Ok s ->
      generate_service_operation cfg path http_operation op path_name0 true = Ok a ->
      operation_id a = "async_" +:+ operation_id s /\
      async_client s = false /\ async_client a = true /\
      params a = params s /\ query_params a = query_params s /\
      return_type a = return_type s /\ body_param a = body_param s /\
      tag a = tag s /\ path_name a = path_name s /\ method a = method s /\
      operation a = operation s /\ pathItem a = pathItem s).
Proof.
  split.
  - split; intros [so Hso];
      apply descriptor_fields in Hso as (ps & id & r & Hp & Hi & Hr & _);
      by eapply descriptor_built.
  - intros s a Hs Ha.
    apply descriptor_fields in Hs as (ps & id & r & Hp & Hi & Hr & ->).
    apply descriptor_fields in Ha as (ps' & id' & r' & Hp' & Hi' & Hr' & ->).
    rewrite Hp in Hp'. rewrite Hi in Hi'. rewrite Hr in Hr'.
    injection Hp' as <-. injection Hi' as <-. injection Hr' as <-.
    cbn. repeat split.
Qed.

(** ** Runs of the two loops *)

Lemma for_each_app {A S : Type} (body : S -> A -> result S) (l1 l2 : list A) (s : S) :
  for_each body (l1 ++ l2) s = let* s1 := for_each body l1 s in for_each body l2 s1.
Proof.
  revert s. induction l1 as [|x l1 IH]; intros s; [done |].
  cbn [app for_each]. destruct (body s x) as [s'|e]; cbn [bind]; [apply IH | done].
Qed.

(** A loop whose body only appends to the accumulator can be run from the
    empty accumulator. *)
Lemma for_each_appends {A B : Type} (body : list B -> A -> result (list B)) :
  (forall acc x, body acc x = let* r := body [] x in Ok (acc ++ r)) ->
  forall items acc,
    for_each body items acc = let* r := for_each body items [] in Ok (acc ++ r).
Proof.
  intros Hbody. induction items as [|x items IH]; intros acc.
  - cbn. by rewrite app_nil_r.
  - cbn [for_each]. rewrite (Hbody acc x).
    destruct (body [] x) as [r|e]; cbn [bind]; [| done].
    rewrite (IH (acc ++ r)), (IH r).
    destruct (for_each body items []) as [r'|e]; cbn [bind]; [| done].
    by rewrite app_assoc.
Qed.

Lemma for_each_keys {A B K : Type} (body : list B -> A -> result (list B))
    (key : B -> K) (g : A -> list K) :
  (forall acc x, body acc x = let* r := body [] x in Ok (acc ++ r)) ->
  (forall x r, body [] x = Ok r -> map key r = g x) ->
  forall items r, for_each body items [] = Ok r -> map key r = flat_map g items.
Proof.
  intros Happ Hkey. induction items as [|x items IH]; intros r.
  - by intros [= <-].
  - cbn [for_each flat_map].
    destruct (body [] x) as [r1|e] eqn:Hx; cbn [bind]; [| done].
    rewrite (for_each_appends body Happ items r1).
    destruct (for_each body items []) as [r2|e] eqn:Hrest; cbn [bind]; [| done].
    intros [= <-]. rewrite map_app. by rewrite (Hkey x r1 Hx), (IH r2).
Qed.

Lemma for_each_succeeds {A S : Type} (body : S -> A -> result S) (items : list A) :
  (forall x, In x items -> forall s, exists s', body s x = Ok s') ->
  forall s, exists s', for_each body items s = Ok s'.
Proof.
  induction items as [|x items IH]; intros Hbody s; [by eexists |].
  cbn [for_each]. destruct (Hbody x (or_introl eq_refl) s) as [s' ->]. cbn [bind].
  apply IH. intros y Hy. apply Hbody. by right.
Qed.

Lemma getattribute_of_method (path : PathItem Schema) (http_operation : string) :
  In http_operation HTTP_OPERATIONS -> exists o, getattribute path http_operation = Ok o.
Proof.
  intros Hin. unfold HTTP_OPERATIONS in Hin. cbn [In] in Hin.
  repeat (destruct Hin as [<- | Hin]; [by eexists |]). done.
Qed.

Lemma visit_operation_appends (cfg : LibraryConfig) (path_name0 : string)
    (path : PathItem Schema) (acc : list (ServiceOperation Schema))
    (http_operation : string) :
  visit_operation cfg path_name0 path acc http_operation
  = let* r := visit_operation cfg path_name0 path [] http_operation in Ok (acc ++ r).
Proof.
  open_visit_operation.
  destruct (getattribute path http_operation) as [[op|]|e]; cbn [bind];
    [| by rewrite app_nil_r | done].
  destruct (include_sync cfg), (include_async cfg);
    destruct (generate_service_operation cfg path http_operation op path_name0 false)
      as [s|e1];
    destruct (generate_service_operation cfg path http_operation op path_name0 true)
      as [a|e2];
    cbn [bind app]; rewrite <- ?app_assoc, ?app_nil_r; done.
Qed.

Lemma visit_path_appends (cfg : LibraryConfig) (acc : list (ServiceOperation Schema))
    (item : string * PathItem Schema) :
  for_each (visit_operation cfg item.1 item.2) HTTP_OPERATIONS acc
  = let* r := for_each (visit_operation cfg item.1 item.2) HTTP_OPERATIONS [] in
    Ok (acc ++ r).
Proof. apply for_each_appends. intros. apply visit_operation_appends. Qed.

Lemma visit_operation_keys (cfg : LibraryConfig) (path_name0 : string)
    (path : PathItem Schema) (http_operation : string)
    (r : list (ServiceOperation Schema)) :
  visit_operation cfg path_name0 path [] http_operation = Ok r ->
  map descriptor_key r = method_keys cfg path_name0 path http_operation.
Proof.
  open_visit_operation. unfold method_keys, variants.
  destruct (getattribute path http_operation) as [[op|]|e]; cbn [bind];
    [| by intros [= <-] | done].
  destruct (include_sync cfg), (include_async cfg);
    destruct (generate_service_operation cfg path http_operation op path_name0 false)
      as [s|e1] eqn:Hs;
    destruct (generate_service_operation cfg path http_operation op path_name0 true)
      as [a|e2] eqn:Ha;
    cbn [bind app]; try done; intros [= <-];
    try (apply descriptor_fields in Hs as (? & ? & ? & _ & _ & _ & ->));
    try (apply descriptor_fields in Ha as (? & ? & ? & _ & _ & _ & ->));
    done.
Qed.

(** X12. The descriptors of a list of paths are those of its first part
    followed by those of the rest: the loops only append, and an error in
    the first part is the error of the whole. *)
Theorem collect_service_ops_app (paths1 paths2 : list (string * PathItem Schema))
    (cfg : LibraryConfig) :
  collect_service_ops (paths1 ++ paths2) cfg
  = let* first := collect_service_ops paths1 cfg in
    let* second := collect_service_ops paths2 cfg in
    Ok (first ++ second).
Proof.
  open_collect_service_ops. rewrite for_each_app.
  destruct (for_each _ paths1 []) as [first|e]; cbn [bind]; [| done].
  apply (for_each_appends
           (fun service_ops item =>
              for_each (visit_operation cfg item.1 item.2) HTTP_OPERATIONS service_ops)).
  intros acc item. apply visit_path_appends.
Qed.

Lemma descriptor_keys_of_run (paths : list (string * PathItem Schema))
    (cfg : LibraryConfig) (service_ops : list (ServiceOperation Schema)) :
  collect_service_ops paths cfg = Ok service_ops ->
  map descriptor_key service_ops = expected_keys paths cfg.
Proof.
  open_collect_service_ops. unfold expected_keys.
  apply (for_each_keys
           (fun service_ops item =>
              for_each (visit_operation cfg item.1 item.2) HTTP_OPERATIONS service_ops)
           descriptor_key
           (fun item => flat_map (method_keys cfg item.1 item.2) HTTP_OPERATIONS)).
  - intros acc item. apply visit_path_appends.
  - intros item r.
    apply (for_each_keys (visit_operation cfg item.1 item.2) descriptor_key
             (method_keys cfg item.1 item.2)).
    + intros. apply visit_operation_appends.
    + intros. by apply visit_operation_keys.
Qed.

Lemma expected_keys_variant (paths : list (string * PathItem Schema)) (cfg : LibraryConfig)
    (k : string * string * bool) :
  In k (expected_keys paths cfg) -> In k.2 (variants cfg).
Proof.
  unfold expected_keys. intros Hk.
  apply in_flat_map in Hk as (item & _ & Hk).
  apply in_flat_map in Hk as (m & _ & Hk).
  unfold method_keys in Hk.
  destruct (getattribute item.2 m) as [[op|]|e]; try done.
  apply in_map_iff in Hk as (a & <- & Ha). done.
Qed.

(** X13. When a run succeeds, its descriptors are, in order, one per path,
    per method present on the path in the order of [HTTP_OPERATIONS], and
    per enabled variant, the synchronous one first; so every descriptor is
    of an enabled variant. *)
Theorem collect_service_ops_keys (paths : list (string * PathItem Schema))
    (cfg : LibraryConfig) (service_ops : list (ServiceOperation Schema)) :
  collect_service_ops paths cfg = Ok service_ops ->
  map descriptor_key service_ops = expected_keys paths cfg /\
  List.length service_ops = List.length (expected_keys paths cfg) /\
  (forall so, In so service_ops ->
     (async_client so = false -> include_sync cfg = true) /\
     (async_client so = true -> include_async cfg = true)).
Proof.
  intros Hops. pose proof (descriptor_keys_of_run paths cfg Hops) as Hkeys.
  split; [done |]. split; [by rewrite <- Hkeys, length_map |].
  intros so Hso.
  assert (Hv : In (async_client so) (variants cfg)).
  { apply (expected_keys_variant paths cfg (descriptor_key so)).
    rewrite <- Hkeys. by apply in_map. }
  unfold variants in Hv.
  destruct (include_sync cfg), (include_async cfg), (async_client so);
    cbn in Hv; intuition congruence.
Qed.

Lemma for_each_unchanged {A S : Type} (body : S -> A -> result S) (items : list A) (s : S) :
  (forall x, In x items -> body s x = Ok s) -> for_each body items s = Ok s.
Proof.
  induction items as [|x items IH]; intros Hbody; [done |].
  cbn [for_each]. rewrite (Hbody x (or_introl eq_refl)). cbn [bind].
  apply IH. intros y Hy. apply Hbody. by right.
Qed.

Lemma unresolved_operation_aborts (paths : list (string * PathItem Schema))
    (cfg : LibraryConfig) (op : Operation Schema) (services : list (Service Schema)) :
  visited paths op ->
  include_sync cfg || include_async cfg = true ->
  generate_services paths cfg = Ok services ->
  (forall path http_operation path_name0 async_type, exists e,
      generate_service_operation cfg path http_operation op path_name0 async_type
      = Raise e) ->
  False.
Proof.
  intros Hv Hflag Hrun Hso.
  destruct (@generate_services_raises Schema type_converter type_converter_none render
              paths cfg op Hv Hflag Hso) as [e He].
  congruence.
Qed.

(** X14. With no variant enabled a run returns no service, whatever the
    paths hold; with a variant enabled it returns services exactly when
    every operation on the paths has its parameter list, its identifier and
    its return type resolved. *)
Theorem run_succeeds_iff_operations_resolve (paths : list (string * PathItem Schema))
    (cfg : LibraryConfig) :
  (include_sync cfg = false -> include_async cfg = false ->
   generate_services paths cfg = Ok []) /\
  (include_sync cfg || include_async cfg = true ->
   ((exists services, generate_services paths cfg = Ok services) <->
    (forall op, visited paths op ->
       exists ps id r,
         generate_params op = Ok ps /\ operationId op = Some id /\
         generate_return_type op = Ok r))).
Proof.
  split.
  - intros Hs Ha. open_generate_services. open_collect_service_ops.
    rewrite for_each_unchanged.
    + cbn [bind]. rewrite group_services_eq.
      unfold observed_tags. cbn [map list_to_set]. by rewrite elements_empty.
    + intros [pn path] _. cbn [fst snd]. apply for_each_unchanged.
      intros m Hm. open_visit_operation.
      destruct (getattribute_of_method path Hm) as [[op|] ->]; cbn [bind]; [| done].
      by rewrite Hs, Ha.
  - intros Hflag. split.
    + intros [services Hrun] op Hv.
      destruct (generate_params op) as [ps|e] eqn:Hp.
      2: { exfalso. apply (unresolved_operation_aborts cfg Hv Hflag Hrun).
           intros. exists e. open_generate_service_operation. by rewrite Hp. }
      destruct (operationId op) as [id|] eqn:Hi.
      2: { exfalso. apply (unresolved_operation_aborts cfg Hv Hflag Hrun).
           intros. eexists. open_generate_service_operation.
             unfold generate_operation_id. by rewrite Hp, Hi. }
      destruct (generate_return_type op) as [r|e] eqn:Hr.
      2: { exfalso. apply (unresolved_operation_aborts cfg Hv Hflag Hrun).
           intros. exists e. open_generate_service_operation.
             unfold generate_operation_id. by rewrite Hp, Hi, Hr. }
      by exists ps, id, r.
    + intros Hall.
      destruct (for_each_succeeds
                  (fun service_ops item =>
                     for_each (visit_operation cfg item.1 item.2) HTTP_OPERATIONS service_ops)
                  paths) with (s := @nil (ServiceOperation Schema)) as [ops Hops].
      * intros [pn path] Hitem s. cbn [fst snd].
        apply for_each_succeeds. intros m Hm s'. open_visit_operation.
        destruct (getattribute_of_method path Hm) as [[op|] Hget]; rewrite Hget;
          cbn [bind]; [| by eexists].
        destruct (Hall op) as (ps & id & r & Hp & Hi & Hr).
        { by exists pn, path, m. }
        assert (Hid : generate_operation_id op m = Ok (replace "-" "_" id)).
        { unfold generate_operation_id. by rewrite Hi. }
        assert (exists so1, generate_service_operation cfg path m op pn false = Ok so1)
          as [so1 H1] by (by eapply descriptor_built).
        assert (exists so2, generate_service_operation cfg path m op pn true = Ok so2)
          as [so2 H2] by (by eapply descriptor_built).
        rewrite H1, H2. destruct (include_sync cfg), (include_async cfg); by eexists.
      * eexists. open_generate_services. open_collect_service_ops. by rewrite Hops.
Qed.

Lemma filter_none {A : Type} (P : A -> Prop) `{!forall x, Decision (P x)} (l : list A) :
  (forall x, In x l -> ~ P x) -> filter P l = [].
Proof.
  induction l as [|x l IH]; intros Hno; [done |].
  rewrite filter_cons. destruct (decide (P x)) as [HP | _].
  - exfalso. apply (Hno x); [by left | done].
  - apply IH. intros y Hy. apply Hno. by right.
Qed.

(** X15. After a successful run the services of a variant that is not
    enabled are all empty: no operation and empty content, for every tag. *)
Theorem disabled_variant_services_are_empty (paths : list (string * PathItem Schema))
    (cfg : LibraryConfig) (service_ops : list (ServiceOperation Schema)) :
  collect_service_ops paths cfg = Ok service_ops ->
  (include_sync cfg = false ->
   forall t, operations (sync_service cfg service_ops t) = [] /\
             service_content (sync_service cfg service_ops t) = "") /\
  (include_async cfg = false ->
   forall t, operations (async_service cfg service_ops t) = [] /\
             service_content (async_service cfg service_ops t) = "").
Proof.
  intros Hops. pose proof (descriptor_keys_of_run paths cfg Hops) as Hkeys.
  assert (Hv : forall so, In so service_ops -> In (async_client so) (variants cfg)).
  { intros so Hso. apply (expected_keys_variant paths cfg (descriptor_key so)).
    rewrite <- Hkeys. by apply in_map. }
  split; intros Hoff t; unfold sync_service, async_service; cbn;
    rewrite filter_none; try done;
    intros so Hso HP; specialize (Hv so Hso); unfold variants in Hv; rewrite Hoff in Hv;
    apply andb_true_iff in HP as [_ HP];
    destruct (include_sync cfg), (include_async cfg), (async_client so);
    cbn in *; intuition congruence.
Qed.

(** ** Grouping *)

Lemma filter_as_bool {A : Type} (f : A -> bool) (l : list A) :
  filter (fun x => f x = true) l = List.filter f l.
Proof.
  induction l as [|x l IH]; [done |].
  rewrite filter_cons. cbn [List.filter].
  destruct (decide (f x = true)) as [Hx | Hx]; destruct (f x); try done; by rewrite IH.
Qed.

Lemma sum_list_zero {A : Type} (l : list A) : sum_list (map (fun _ => 0%nat) l) = 0%nat.
Proof. induction l as [|x l IH]; [done |]. cbn. exact IH. Qed.

Lemma sum_list_add {A : Type} (a b : A -> nat) (l : list A) :
  sum_list (map (fun x => (a x + b x)%nat) l)
  = (sum_list (map a l) + sum_list (map b l))%nat.
Proof.
  induction l as [|x l IH]; [done |].
  cbn [map sum_list_with id]. rewrite IH. unfold id. lia.
Qed.

(** Over distinct tags, one tag at most is the tag of a given descriptor. *)
Lemma sum_list_tag_indicator (x : option string) (p : bool) (ts : list (option string)) :
  NoDup ts ->
  sum_list (map (fun t => if tag_eqb x t && p then 1%nat else 0%nat) ts)
  = (if bool_decide (x ∈ ts) && p then 1%nat else 0%nat).
Proof.
  induction 1 as [|t ts Hnot Hdup IH]; [done |].
  cbn [map sum_list_with id]. rewrite IH. unfold id, tag_eqb.
  destruct (decide (x = t)) as [-> | Hne].
  - rewrite (bool_decide_eq_true_2 (t = t)) by done.
    rewrite (bool_decide_eq_false_2 (t ∈ ts)) by done.
    rewrite (bool_decide_eq_true_2 (t ∈ t :: ts)) by (by left).
    destruct p; cbn; lia.
  - rewrite (bool_decide_eq_false_2 (x = t)) by done.
    destruct (decide (x ∈ ts)) as [Hin | Hnin].
    + rewrite (bool_decide_eq_true_2 (x ∈ ts)) by done.
      rewrite (bool_decide_eq_true_2 (x ∈ t :: ts)) by (by right). cbn. lia.
    + rewrite (bool_decide_eq_false_2 (x ∈ ts)) by done.
      rewrite (bool_decide_eq_false_2 (x ∈ t :: ts)); [cbn; lia |].
      intros [? | ?]%elem_of_cons; done.
Qed.

Lemma count_by_tag (P : ServiceOperation Schema -> bool) (ts : list (option string))
    (service_ops : list (ServiceOperation Schema)) :
  NoDup ts ->
  (forall so, In so service_ops -> tag so ∈ ts) ->
  sum_list
    (map (fun t => List.length (List.filter (fun so => tag_eqb (tag so) t && P so) service_ops))
       ts)
  = List.length (List.filter P service_ops).
Proof.
  intros Hdup. induction service_ops as [|so ops IH]; intros Htags.
  - cbn [List.filter List.length]. apply sum_list_zero.
  - rewrite (map_ext _
               (fun t => ((if tag_eqb (tag so) t && P so then 1 else 0)
                          + List.length
                              (List.filter (fun so' => tag_eqb (tag so') t && P so') ops))%nat)).
    2: { intros t. cbn [List.filter]. by destruct (tag_eqb (tag so) t && P so). }
    rewrite sum_list_add, sum_list_tag_indicator by done.
    rewrite IH by (intros so' Hso'; apply Htags; by right).
    rewrite (bool_decide_eq_true_2 (tag so ∈ ts)) by (apply Htags; by left).
    cbn [List.filter andb]. by destruct (P so).
Qed.

Lemma observed_tag (service_ops : list (ServiceOperation Schema))
    (so : ServiceOperation Schema) :
  In so service_ops -> tag so ∈ elements (observed_tags service_ops).
Proof.
  intros Hso. apply elem_of_elements. unfold observed_tags.
  apply elem_of_list_to_set, list_elem_of_In. by apply in_map.
Qed.

(** X16. Grouping loses no descriptor and repeats none: the services hold,
    in all, as many operations as there are descriptors. *)
Theorem grouping_keeps_every_descriptor (cfg : LibraryConfig)
    (service_ops : list (ServiceOperation Schema)) :
  member_count (group_services cfg service_ops) = List.length service_ops.
Proof.
  unfold member_count. rewrite group_services_eq, map_app, !map_map.
  rewrite sum_list_with_app.
  cbn [sync_service async_service operations].
  rewrite (map_ext _
             (fun t => List.length
                         (List.filter
                            (fun so => tag_eqb (tag so) t && negb (async_client so))
                            service_ops)))
    by (intros t; by rewrite filter_as_bool).
  rewrite (map_ext
             (fun t => List.length
                         (filter (fun so => tag_eqb (tag so) t && async_client so = true)
                            service_ops))
             (fun t => List.length
                         (List.filter
                            (fun so => tag_eqb (tag so) t && async_client so)
                            service_ops)))
    by (intros t; by rewrite filter_as_bool).
  rewrite (count_by_tag (fun so => negb (async_client so)))
    by (apply NoDup_elements || apply observed_tag).
  rewrite (count_by_tag (fun so => async_client so))
    by (apply NoDup_elements || apply observed_tag).
  pose proof (List.filter_length (fun so : ServiceOperation Schema => async_client so)
                service_ops) as Hlen.
  cbn beta in Hlen. lia.
Qed.

(** X17. Every service holds descriptors of the run in their encounter
    order, all of the service's variant and all of one observed tag, which
    names its file; its content is their contents joined by newlines; and
    every descriptor of the run is held by the service of its own tag and
    variant. *)
Theorem grouped_members (cfg : LibraryConfig)
    (service_ops : list (ServiceOperation Schema)) :
  (forall svc, In svc (group_services cfg service_ops) ->
     operations svc `sublist_of` service_ops /\
     (forall so, In so (operations svc) -> async_client so = service_async_client svc) /\
     (exists t, t ∈ observed_tags service_ops /\
                (forall so, In so (operations svc) -> tag so = t) /\
                file_name svc
                = (if service_async_client svc then "async_" else "")
                  +:+ tag_str t +:+ "_service") /\
     service_content svc = join (String "010" "") (map (@content Schema) (operations svc)) /\
     library_import svc = library_name cfg) /\
  (forall so, In so service_ops ->
     exists svc,
       In svc (group_services cfg service_ops) /\ In so (operations svc) /\
       service_async_client svc = async_client so /\
       file_name svc
       = (if async_client so then "async_" else "") +:+ tag_str (tag so) +:+ "_service").
Proof.
  rewrite group_services_eq. split.
  - intros svc Hsvc. apply in_app_or in Hsvc as [Hsvc | Hsvc];
      apply in_map_iff in Hsvc as (t & <- & Ht);
      apply list_elem_of_In, elem_of_elements in Ht;
      cbn [sync_service async_service operations service_async_client file_name
           service_content library_import];
      (split; [apply sublist_filter |]);
      (split; [intros so [HP _]%list_elem_of_In%list_elem_of_filter;
               apply andb_true_iff in HP as [_ HP]; by destruct (async_client so) |]);
      (split; [| done]);
      exists t; (split; [done |]); (split; [| done]);
      intros so [HP _]%list_elem_of_In%list_elem_of_filter;
      apply andb_true_iff in HP as [HP _]; by apply bool_decide_eq_true in HP.
  - intros so Hso.
    pose proof (observed_tag service_ops so Hso) as Ht. apply list_elem_of_In in Ht.
    destruct (async_client so) eqn:Ha.
    + exists (async_service cfg service_ops (tag so)). repeat split.
      * apply in_or_app. right. by apply in_map.
      * cbn. apply list_elem_of_In, list_elem_of_filter. split; [| by apply list_elem_of_In].
        unfold tag_eqb. by rewrite bool_decide_eq_true_2, Ha.
    + exists (sync_service cfg service_ops (tag so)). repeat split.
      * apply in_or_app. left. by apply in_map.
      * cbn. apply list_elem_of_In, list_elem_of_filter. split; [| by apply list_elem_of_In].
        unfold tag_eqb. by rewrite bool_decide_eq_true_2, Ha.
Qed.

(** ** File names *)

Lemma append_assoc (a b c : string) : (a +:+ b) +:+ c = a +:+ b +:+ c.
Proof.
  induction a as [|x a IH]; [done |].
  change (String x ((a +:+ b) +:+ c) = String x (a +:+ b +:+ c)). by f_equal.
Qed.

Lemma append_cancel_r (a b s : string) : a +:+ s = b +:+ s -> a = b.
Proof.
  intros H. apply (f_equal list_ascii_of_string) in H.
  rewrite !list_ascii_of_string_app in H. apply app_inv_tail in H.
  apply (f_equal string_of_list_ascii) in H.
  by rewrite !string_of_list_ascii_of_string in H.
Qed.

(** X18. Two services of the same variant have the same file name exactly
    when their tags read the same, which happens for equal tags and for the
    absent tag against the tag ["None"]; a synchronous and an asynchronous
    service have the same file name exactly when the tag of the first reads
    [async_] followed by the tag of the second. *)
Theorem service_file_names (cfg : LibraryConfig)
    (service_ops : list (ServiceOperation Schema)) (t1 t2 : option string) :
  (file_name (sync_service cfg service_ops t1) = file_name (sync_service cfg service_ops t2)
   <-> tag_str t1 = tag_str t2) /\
  (file_name (async_service cfg service_ops t1) = file_name (async_service cfg service_ops t2)
   <-> tag_str t1 = tag_str t2) /\
  (file_name (sync_service cfg service_ops t1) = file_name (async_service cfg service_ops t2)
   <-> tag_str t1 = "async_" +:+ tag_str t2) /\
  (tag_str t1 = tag_str t2
   <-> t1 = t2 \/ (t1 = None /\ t2 = Some "None") \/ (t1 = Some "None" /\ t2 = None)).
Proof.
  cbn [sync_service async_service file_name]. repeat split.
  - apply append_cancel_r.
  - by intros ->.
  - intros H. apply String.app_inj in H. by apply append_cancel_r in H.
  - by intros ->.
  - intros H. rewrite <- append_assoc in H. by apply append_cancel_r in H.
  - intros ->. by rewrite append_assoc.
  - destruct t1 as [s1|], t2 as [s2|]; cbn [tag_str]; intros H; subst; auto.
  - intros [-> | [[-> ->] | [-> ->]]]; done.
Qed.

End FurtherProperties.

(** * The further properties on the sample inputs *)

Lemma generate_operation_id_sanitised_witness :
  exists id,
    operationId list_pets = Some id /\
    lacks_char "-" "list_pets" = true /\
    String.length "list_pets" = String.length id.
Proof.
  destruct (generate_operation_id_sanitised list_pets "get" (v := "list_pets") eq_refl)
    as (id & Hid & Hlacks & Hlen & _).
  exists id. by repeat split.
Defined.

Lemma body_param_names_last_parameter_witness :
  exists T, last ["pet-id : int"; "data : Pet"] = Some ("data" +:+ " : " +:+ T).
Proof.
  refine (proj2 (body_param_names_last_parameter sample_converter sample_converter_none
                   create_pet (l := ["pet-id : int"; "data : Pet"]) _)).
  vm_compute. reflexivity.
Defined.

Lemma query_entries_are_declared_witness :
  (List.length (generate_query_params list_pets) <= 2)%nat /\
  exists p,
    In p (declared_parameters list_pets) /\ param_in p = "query" /\
    "'limit' : limit" = "'" +:+ name p +:+ "' : " +:+ name p.
Proof.
  destruct (query_entries_are_declared sample_converter sample_converter_none list_pets
              (l := ["limit : int = None"; "pet-id : int"])) as [Hentry Hlen];
    [vm_compute; reflexivity |].
  split; [exact Hlen |].
  destruct (Hentry "'limit' : limit") as (p & Hp & Hq & Hname & _);
    [left; vm_compute; reflexivity |].
  by exists p.
Defined.

Lemma value_error_iff_bad_key_witness :
  exists msg,
    resolve_responses sample_converter
      (Some [("200", ReferencedResponse (mkReference "#/components/responses/Done"));
             ("2XX", InlineResponse no_content)])
    = Raise (ValueError msg).
Proof.
  destruct (value_error_iff_bad_key sample_converter
              [("200", ReferencedResponse (mkReference "#/components/responses/Done"));
               ("2XX", InlineResponse no_content)]) as [_ Hraise].
  { intros key value [Hin | [Hin | []]]; injection Hin as <- _; reflexivity. }
  apply Hraise.
  exists "2XX", (InlineResponse no_content).
  split; [right; left; reflexivity | split; vm_compute; reflexivity].
Defined.

Lemma generate_return_type_errors_witness :
  (exists key (value : ResponseValue TypeConversion) items,
      Some [("200", ReferencedResponse (mkReference "#/components/responses/Done"))]
      = Some items /\
      In (key, value) items /\ startswith key "2" = true /\
      int key = Raise (AttributeError "'Reference' object has no attribute 'content'") /\
      AttributeError "'Reference' object has no attribute 'content'"
      = ValueError (int_error key)) \/
  AttributeError "'Reference' object has no attribute 'content'"
  = AttributeError "'Reference' object has no attribute 'content'" \/
  AttributeError "'Reference' object has no attribute 'content'"
  = Exception "Unknown media type schema type" \/
  AttributeError "'Reference' object has no attribute 'content'"
  = IndexError "list index out of range".
Proof.
  apply (generate_return_type_errors sample_converter
           (Some [("200", ReferencedResponse
                            (mkReference "#/components/responses/Done"))])).
  vm_compute. reflexivity.
Defined.

Lemma chosen_response_outcomes_witness :
  resolve_responses sample_converter
    (Some [("200", InlineResponse (mkResponse (Some plain_text_only)))])
  = Raise (Exception "Unknown media type schema type") /\
  resolve_responses sample_converter
    (Some [("200", ReferencedResponse (mkReference "#/components/responses/Done"))])
  = Raise (AttributeError "'Reference' object has no attribute 'content'").
Proof.
  split.
  - destruct (chosen_response_outcomes sample_converter
                [("200", InlineResponse (mkResponse (Some plain_text_only)))]
                (code := 200) (value := InlineResponse (mkResponse (Some plain_text_only)))
                (rest := [])) as (_ & Hunknown & _); [vm_compute; reflexivity |].
    apply Hunknown. exists (mkResponse (Some plain_text_only)), plain_text_only.
    split; [reflexivity |]. split; [reflexivity |]. left. vm_compute. reflexivity.
  - destruct (chosen_response_outcomes sample_converter
                [("200", ReferencedResponse (mkReference "#/components/responses/Done"))]
                (code := 200)
                (value := ReferencedResponse (mkReference "#/components/responses/Done"))
                (rest := [])) as (Hreferenced & _); [vm_compute; reflexivity |].
    apply Hreferenced. by eexists.
Defined.

Lemma reference_return_type_witness :
  generate_return_type sample_converter
    (mkOperation (Some "get-pet") None None
       (Some [("200", mkResponse
                        (Some (json_only (IsReference
                                            (mkReference "#/components/schemas/Pet")))))])
       None)
  = Ok (mkOpReturnType
          (Some (mkTypeConversion "#/components/schemas/Pet" "Pet" (Some ["Pet"])))
          (StatusInt 200) true None).
Proof.
  apply (reference_return_type sample_converter _
           (items := [("200", mkResponse
                                (Some (json_only (IsReference
                                                    (mkReference "#/components/schemas/Pet")))))])
           (key := "200")
           (resp := mkResponse
                      (Some (json_only (IsReference
                                          (mkReference "#/components/schemas/Pet")))))
           (rest := [])
           (media_types := json_only (IsReference (mkReference "#/components/schemas/Pet")))
           (media := mkMediaType (Some (IsReference (mkReference "#/components/schemas/Pet"))))
           (r := mkReference "#/components/schemas/Pet")
           "#/components/schemas" "Pet");
    try reflexivity; vm_compute; reflexivity.
Defined.

Lemma descriptor_error_precedence_witness :
  generate_service_operation sample_converter sample_converter_none sample_render
    sync_only upload_path "put" upload_text "/upload" false
  = Raise (Exception "Unknown media type schema type: <class 'dict'>").
Proof.
  apply (proj1 (descriptor_error_precedence sample_converter sample_converter_none
                  sample_render sync_only upload_path "put" upload_text "/upload" false)).
  vm_compute. reflexivity.
Defined.

Lemma descriptor_rendered_before_tagged_witness :
  exists so,
    generate_service_operation sample_converter sample_converter_none sample_render
      sync_only pets_path "get" list_pets "/pets" false = Ok so /\
    tag so = Some "pets" /\ tag (unrendered so) = None.
Proof.
  assert (Hbuilt : exists so,
             generate_service_operation sample_converter sample_converter_none sample_render
               sync_only pets_path "get" list_pets "/pets" false = Ok so)
    by (eexists; vm_compute; reflexivity).
  destruct Hbuilt as [so Hso]. exists so. split; [exact Hso |].
  destruct (descriptor_rendered_before_tagged sample_converter sample_converter_none
              sample_render sync_only pets_path "get" list_pets "/pets" false Hso)
    as (_ & Hfirst & _ & _ & Hhidden & _).
  split; [apply (Hfirst "pets" ["store"]); reflexivity | exact Hhidden].
Defined.

Lemma sync_and_async_descriptors_witness :
  exists a,
    generate_service_operation sample_converter sample_converter_none sample_render
      sync_only pets_path "get" list_pets "/pets" true = Ok a.
Proof.
  apply (proj1 (proj1 (sync_and_async_descriptors sample_converter sample_converter_none
                         sample_render sync_only pets_path "get" list_pets "/pets"))).
  eexists. vm_compute. reflexivity.
Defined.

Lemma collect_service_ops_keys_witness :
  exists service_ops,
    collect_service_ops sample_converter sample_converter_none sample_render
      [("/pets", pets_path)] sync_and_async = Ok service_ops /\
    map descriptor_key service_ops
    = [("/pets", "get", false); ("/pets", "get", true);
       ("/pets", "post", false); ("/pets", "post", true)].
Proof.
  assert (Hrun : exists service_ops,
             collect_service_ops sample_converter sample_converter_none sample_render
               [("/pets", pets_path)] sync_and_async = Ok service_ops)
    by (eexists; vm_compute; reflexivity).
  destruct Hrun as [service_ops Hops]. exists service_ops. split; [exact Hops |].
  destruct (collect_service_ops_keys sample_converter sample_converter_none sample_render
              [("/pets", pets_path)] sync_and_async Hops) as (Hkeys & _).
  rewrite Hkeys. vm_compute. reflexivity.
Defined.

Lemma run_succeeds_iff_operations_resolve_witness :
  sample_services [("/upload", upload_path)]
    (mkLibraryConfig "httpx.jinja2" false false "httpx") = Ok [].
Proof.
  apply (proj1 (run_succeeds_iff_operations_resolve sample_converter sample_converter_none
                  sample_render [("/upload", upload_path)]
                  (mkLibraryConfig "httpx.jinja2" false false "httpx")));
    reflexivity.
Defined.

Lemma disabled_variant_services_are_empty_witness :
  exists service_ops,
    collect_service_ops sample_converter sample_converter_none sample_render
      [("/pets", pets_path)] sync_only = Ok service_ops /\
    operations (async_service sync_only service_ops (Some "pets")) = [] /\
    service_content (async_service sync_only service_ops (Some "pets")) = "".
Proof.
  assert (Hrun : exists service_ops,
             collect_service_ops sample_converter sample_converter_none sample_render
               [("/pets", pets_path)] sync_only = Ok service_ops)
    by (eexists; vm_compute; reflexivity).
  destruct Hrun as [service_ops Hops]. exists service_ops. split; [exact Hops |].
  destruct (disabled_variant_services_are_empty sample_converter sample_converter_none
              sample_render [("/pets", pets_path)] sync_only Hops) as [_ Hasync].
  apply Hasync. reflexivity.
Defined.

Lemma grouped_members_witness :
  exists so svc,
    generate_service_operation sample_converter sample_converter_none sample_render
      sync_only pets_path "get" list_pets "/pets" false = Ok so /\
    In svc (group_services sync_only [so]) /\ In so (operations svc) /\
    service_async_client svc = async_client so.
Proof.
  assert (Hbuilt : exists so,
             generate_service_operation sample_converter sample_converter_none sample_render
               sync_only pets_path "get" list_pets "/pets" false = Ok so)
    by (eexists; vm_compute; reflexivity).
  destruct Hbuilt as [so Hso].
  destruct (proj2 (grouped_members sync_only [so]) so (or_introl eq_refl))
    as (svc & Hin & Hmember & Hflag & _).
  by exists so, svc.
Defined.

Lemma service_file_names_witness :
  file_name (sync_service sync_only (@nil (ServiceOperation TypeConversion)) None)
  = file_name (sync_service sync_only (@nil (ServiceOperation TypeConversion))
                 (Some "None")) /\
  file_name (sync_service sync_only (@nil (ServiceOperation TypeConversion))
               (Some "async_pets"))
  = file_name (async_service sync_only (@nil (ServiceOperation TypeConversion))
                 (Some "pets")).
Proof.
  destruct (service_file_names sync_only (@nil (ServiceOperation TypeConversion))
              None (Some "None")) as ([_ Hsame] & _).
  destruct (service_file_names sync_only (@nil (ServiceOperation TypeConversion))
              (Some "async_pets") (Some "pets")) as (_ & _ & [_ Hcross] & _).
  split; [apply Hsame | apply Hcross]; reflexivity.
Defined.
